(** * SignLink backend: landmark templates, nearest-centroid matching, gesture rule

    A shallow embedding of the three Python modules of the backend

      - [process_landmarks.py]  (modules [ProcessLandmarks] and
                                 [ProcessLandmarksStore])
      - [sign_classifier.py]    (module [SignClassifier])
      - [main.py]               (module [Main])

    together with the statements of the specification that concern them.

    Python values are modelled as follows.
      - [float] is the IEEE 754 binary64 type of the kernel ([PrimFloat]),
        which is what a Python [float] and a numpy [float64] are.
      - [str] is [string], read as the UTF-8 encoding of the Python string.
      - a [list] is a [list]; indexing is written out with its [IndexError].
      - the [dict] iterated by [classify] keeps insertion order and is an
        association list with unique keys; the module-level [SIGN_LANDMARKS],
        which is only ever tested for emptiness and looked up, is a [gmap].
      - a raised exception is the [Raise] case of [result]; module-level
        state and the file system are threaded through the monad [M]. *)

From Stdlib Require Import ZArith List Bool Ascii String Floats Uint63 Lia.
From stdpp Require Import base option list strings gmap pretty.

Local Open Scope string_scope.
Local Open Scope list_scope.
Local Open Scope Z_scope.

Set Warnings "-inexact-float".

(** ** Python substrate *)

Inductive exception : Type :=
| IndexError
| KeyError (key : string)
| AttributeError
| JSONDecodeError
| ZeroDivisionError
| OverflowError
| ValueError
| HTTPException (status_code : Z) (detail : string).

Inductive result (A : Type) : Type :=
| Ok (a : A)
| Raise (e : exception).
Arguments Ok {A} a.
Arguments Raise {A} e.

Definition rbind {A B} (r : result A) (k : A -> result B) : result B :=
  match r with
  | Ok a => k a
  | Raise e => Raise e
  end.

#[global] Instance result_ret : MRet result := fun A a => Ok a.
#[global] Instance result_bind : MBind result := fun A B k r => rbind r k.

(** A [for] loop whose body may raise, with the loop-carried variables in [s]. *)
Fixpoint for_in {A S} (l : list A) (body : S -> A -> result S) (s : S) : result S :=
  match l with
  | [] => Ok s
  | a :: l' => s' ← body s a ; for_in l' body s'
  end.

(** A comprehension [[f a for a in l]] whose element expression may raise. *)
Fixpoint comprehension {A B} (f : A -> result B) (l : list A) : result (list B) :=
  match l with
  | [] => Ok []
  | a :: l' => b ← f a ; bs ← comprehension f l' ; Ok (b :: bs)
  end.

(** [l[i]] on a Python list: negative indices count from the end. *)
Definition py_index {A} (l : list A) (i : Z) : result A :=
  let n := Z.of_nat (length l) in
  let j := if i <? 0 then i + n else i in
  if (0 <=? j) && (j <? n) then
    match l !! Z.to_nat j with
    | Some a => Ok a
    | None => Raise IndexError
    end
  else Raise IndexError.

(** [len(l)] as a float operand ([len] is far below 2^53, so the conversion is exact). *)
Definition float_of_len (n : nat) : float :=
  PrimFloat.of_uint63 (Uint63.of_Z (Z.of_nat n)).

(** [s.lower()] and [s.upper()] on the UTF-8 bytes of [s].  The case mapping
    is Python's on ASCII letters and on U+00DF (bytes 195 159), which has no
    lowercase of its own and whose uppercase is the two letters SS; every other
    byte is carried over unchanged, which is Python's mapping on caseless
    scripts such as Hangul.  Other cased non-ASCII letters are outside of this
    model. *)
Definition lower_byte (c : ascii) : ascii :=
  let n := N_of_ascii c in
  if (65 <=? n)%N && (n <=? 90)%N then ascii_of_N (n + 32) else c.

Definition upper_byte (c : ascii) : ascii :=
  let n := N_of_ascii c in
  if (97 <=? n)%N && (n <=? 122)%N then ascii_of_N (n - 32) else c.

Fixpoint str_lower (s : string) : string :=
  match s with
  | EmptyString => EmptyString
  | String c s' => String (lower_byte c) (str_lower s')
  end.

Fixpoint str_upper (s : string) : string :=
  match s with
  | EmptyString => EmptyString
  | String c s' =>
      match s' with
      | EmptyString => String (upper_byte c) EmptyString
      | String d s'' =>
          if (N_of_ascii c =? 195)%N && (N_of_ascii d =? 159)%N
          then String "S" (String "S" (str_upper s''))
          else String (upper_byte c) (str_upper s')
      end
  end.

(** [a or b] on two values that are each [None] or a [str]: the first one
    unless it is falsy ([None] or the empty string). *)
Definition py_or (a b : option string) : option string :=
  match a with
  | Some s => if String.eqb s "" then b else Some s
  | None => b
  end.

(** [alias.lower()], where [alias] may be [None]. *)
Definition lower_method (alias : option string) : result string :=
  match alias with
  | Some s => Ok (str_lower s)
  | None => Raise AttributeError
  end.

(** [l[:stop]] *)
Definition slice_to {A} (l : list A) (stop : Z) : list A :=
  if stop <? 0 then take (length l - Z.to_nat (- stop))%nat l
  else take (Z.to_nat stop) l.

(** An insertion-ordered [dict] with [str] keys. *)
Definition dict (V : Type) : Type := list (string * V).

Fixpoint dict_get {V} (d : dict V) (k : string) : option V :=
  match d with
  | [] => None
  | (k', v) :: d' => if String.eqb k' k then Some v else dict_get d' k
  end.

(** [d[k] = v]: an existing key keeps its position, a new one goes last. *)
Fixpoint dict_set {V} (d : dict V) (k : string) (v : V) : dict V :=
  match d with
  | [] => [(k, v)]
  | (k', v') :: d' =>
      if String.eqb k' k then (k', v) :: d' else (k', v') :: dict_set d' k v
  end.

(** ** Landmark data *)

(** A landmark point as the JSON object [{"id": .., "x": .., "y": .., "z": ..}].
    The classifier reads ["z"] with [.get("z", 0.0)], so the key may be absent. *)
Record point : Type := Point {
  pt_id : Z;
  pt_x : float;
  pt_y : float;
  pt_z : option float;
}.

Definition frame := list point.

(** [p["z"]] and [p.get("z", 0.0)]. *)
Definition get_z (p : point) : result float :=
  match pt_z p with
  | Some v => Ok v
  | None => Raise (KeyError "z")
  end.

Definition get_z_default (p : point) : float :=
  match pt_z p with
  | Some v => v
  | None => 0%float
  end.

(** ** process_landmarks.py *)

Module ProcessLandmarks.

(** A row of the numpy accumulator, shape [(3,)]. *)
Definition vec3 : Type := float * float * float.

Definition vadd (a b : vec3) : vec3 :=
  let '(a0, a1, a2) := a in
  let '(b0, b1, b2) := b in
  ((a0 + b0)%float, (a1 + b1)%float, (a2 + b2)%float).

Definition vdiv (a : vec3) (n : float) : vec3 :=
  let '(a0, a1, a2) := a in ((a0 / n)%float, (a1 / n)%float, (a2 / n)%float).

Definition vzero : vec3 := (0%float, 0%float, 0%float).

(** [np.zeros((num_points, 3), dtype=np.float64)] *)
Definition np_zeros (num_points : nat) : list vec3 := replicate num_points vzero.

(** Row index of a numpy array along axis 0: an index in [-n, n) is valid,
    negative ones counting from the end; anything else is an [IndexError]. *)
Definition np_row (n : nat) (i : Z) : result nat :=
  if (0 <=? i) && (i <? Z.of_nat n) then Ok (Z.to_nat i)
  else if (- Z.of_nat n <=? i) && (i <? 0) then Ok (Z.to_nat (i + Z.of_nat n))
  else Raise IndexError.

(** [accum[point["id"]] += np.array([point["x"], point["y"], point["z"]])] *)
Definition accumulate (accum : list vec3) (p : point) : result (list vec3) :=
  r ← np_row (length accum) (pt_id p) ;
  z ← get_z p ;
  match accum !! r with
  | Some row => Ok (<[r := vadd row (pt_x p, pt_y p, z)]> accum)
  | None => Raise IndexError
  end.

Definition average_landmarks (frames : list frame) : result frame :=
  match frames with
  | [] => Ok []
  | frame0 :: _ =>
      let num_points := length frame0 in
      accum ← for_in frames
                 (fun accum frame => for_in frame accumulate accum)
                 (np_zeros num_points) ;
      comprehension
        (fun idx =>
           row ← py_index accum (Z.of_nat idx) ;
           let '(a0, a1, a2) := vdiv row (float_of_len (length frames)) in
           Ok (Point (Z.of_nat idx) a0 a1 (Some a2)))
        (seq 0 num_points)
  end.

End ProcessLandmarks.

(** ** The template directory and the process state *)

(** The JSON object of one [*_landmarks.json] file, as [save_landmarks] writes
    it; every key is read with [.get], so each may be absent. *)
Record payload : Type := Payload {
  sign : option string;
  alias : option string;
  video : option string;
  frames_sampled : option Z;
  average : option frame;
  frames : option (list frame);
}.

(** A file of the data directory: [content] is [None] when [json.load] fails
    on it. *)
Record file : Type := File {
  path : string;
  content : option payload;
}.

(** One row of the exported dataset: [{"label": .., "x_0": .., ...}]. *)
Inductive cell : Type :=
| CLabel (label : option string)
| CNum (v : float).

Definition row := dict cell.

Inductive fs_event : Type :=
| Glob
| Open (name : string)
| Write (name : string).

(** [DATA_DIR] lists the files [DATA_DIR.glob("*_landmarks.json")] yields, in
    the order it yields them; [SIGN_LANDMARKS] is the module-level dictionary
    of [main.py]; [fs_log] records the accesses to the file system, latest
    first; [written] holds what [json.dump] wrote, by destination. *)
Record world : Type := World {
  DATA_DIR : list file;
  SIGN_LANDMARKS : gmap string payload;
  fs_log : list fs_event;
  written : list (string * list row);
}.

Definition M (A : Type) : Type := world -> result A * world.

#[global] Instance M_ret : MRet M := fun A a w => (Ok a, w).
#[global] Instance M_bind : MBind M := fun A B k m w =>
  match m w with
  | (Ok a, w') => k a w'
  | (Raise e, w') => (Raise e, w')
  end.

Definition lift {A} (r : result A) : M A := fun w => (r, w).

Definition log (e : fs_event) : M unit := fun w =>
  (Ok tt, World (DATA_DIR w) (SIGN_LANDMARKS w) (e :: fs_log w) (written w)).

(** Reading and assigning into the module-level [SIGN_LANDMARKS]. *)
Definition read_SIGN_LANDMARKS : M (gmap string payload) := fun w =>
  (Ok (SIGN_LANDMARKS w), w).

Definition store_SIGN_LANDMARKS (key : string) (p : payload) : M unit := fun w =>
  (Ok tt, World (DATA_DIR w) (<[key := p]> (SIGN_LANDMARKS w)) (fs_log w) (written w)).

(** A [for] loop over [l] in [M], with the loop-carried variables in [s]. *)
Fixpoint for_in_M {A S} (l : list A) (body : S -> A -> M S) (s : S) : M S :=
  match l with
  | [] => mret s
  | a :: l' => s' ← body s a ; for_in_M l' body s'
  end.

(** [DATA_DIR.glob("*_landmarks.json")] *)
Definition glob : M (list file) := fun w =>
  (Ok (DATA_DIR w), World (DATA_DIR w) (SIGN_LANDMARKS w) (Glob :: fs_log w) (written w)).

(** [with json_file.open(encoding="utf-8") as f: payload = json.load(f)] *)
Definition json_load (json_file : file) : M payload :=
  _ ← log (Open (path json_file)) ;
  match content json_file with
  | Some p => mret p
  | None => lift (Raise JSONDecodeError)
  end.

(** [with out_path.open("w") as f: json.dump(rows, f)] *)
Definition json_dump (out_path : string) (rows : list row) : M unit := fun w =>
  (Ok tt, World (DATA_DIR w) (SIGN_LANDMARKS w) (Write out_path :: fs_log w)
             ((out_path, rows) :: written w)).

(** ** sign_classifier.py *)

Module SignClassifier.

(** The body of the loop of [load_templates]. *)
Definition load_template (templates : dict frame) (json_file : file) : M (dict frame) :=
  payload ← json_load json_file ;
  let alias := py_or (alias payload) (sign payload) in
  key ← lift (lower_method alias) ;
  mret (dict_set templates key (default [] (average payload))).

Definition load_templates : M (dict frame) :=
  files ← glob ;
  for_in_M files load_template [].

(** [d ** 2] on a float: the square, rounded to nearest, or [OverflowError]
    when a finite [d] has a square beyond the largest float. *)
Definition pow2 (d : float) : result float :=
  let r := (d * d)%float in
  if PrimFloat.is_finite d && PrimFloat.is_infinity r then Raise OverflowError
  else Ok r.

(** [math.sqrt] *)
Definition math_sqrt (v : float) : result float :=
  if (v <? 0)%float then Raise ValueError else Ok (PrimFloat.sqrt v).

Definition euclidean_distance (p1 p2 : point) : result float :=
  dx ← pow2 (pt_x p1 - pt_x p2)%float ;
  dy ← pow2 (pt_y p1 - pt_y p2)%float ;
  dz ← pow2 (get_z_default p1 - get_z_default p2)%float ;
  math_sqrt (dx + dy + dz)%float.

(** [sum(..)] of floats: the additions left to right from [0], as CPython does
    them up to version 3.11 (later versions carry a compensation term along,
    which can change the last bits of the result, not its role below). *)
Definition py_sum (l : list float) : float := fold_left PrimFloat.add l 0%float.

(** [s / n] with [n] a [len]. *)
Definition div_len (s : float) (n : nat) : result float :=
  match n with
  | O => Raise ZeroDivisionError
  | _ => Ok (s / float_of_len n)%float
  end.

(** [sum(euclidean_distance(landmarks[i], template[i])
         for i in range(len(template))) / len(template)] *)
Definition score (landmarks template : frame) : result float :=
  ds ← comprehension
         (fun i =>
            p1 ← py_index landmarks (Z.of_nat i) ;
            p2 ← py_index template (Z.of_nat i) ;
            euclidean_distance p1 p2)
         (seq 0 (length template)) ;
  div_len (py_sum ds) (length template).

(** The body of the loop of [classify] on the pair [(best_label, best_score)]. *)
Definition classify_step (landmarks : frame) (best : option string * float)
    (item : string * frame) : result (option string * float) :=
  let '(label, template) := item in
  if negb (Nat.eqb (length template) (length landmarks)) then Ok best
  else
    score ← score landmarks template ;
    if (score <? snd best)%float then Ok (Some label, score) else Ok best.

Definition classify (landmarks : frame) : M (option string) :=
  templates ← load_templates ;
  match templates, landmarks with
  | [], _ | _, [] => mret None
  | _, _ =>
      best ← lift (for_in templates (classify_step landmarks) (None, infinity)) ;
      mret (fst best)
  end.

(** The loop over the points of one frame in [export_dataset]. *)
Definition add_point (r : row) (p : point) : row :=
  let r := dict_set r ("x_" +:+ pretty (pt_id p)) (CNum (pt_x p)) in
  let r := dict_set r ("y_" +:+ pretty (pt_id p)) (CNum (pt_y p)) in
  dict_set r ("z_" +:+ pretty (pt_id p)) (CNum (get_z_default p)).

(** The row of one frame: [{"label": alias}] and then the columns of its points. *)
Definition make_row (alias : option string) (frame : frame) : row :=
  fold_left add_point frame [("label", CLabel alias)].

(** Truth value of [limit_frames]: [None] and [0] are falsy. *)
Definition truthy (limit_frames : option Z) : bool :=
  match limit_frames with
  | Some n => negb (n =? 0)
  | None => false
  end.

(** The body of the loop over the files in [export_dataset]. *)
Definition export_file (limit_frames : option Z) (rows : list row) (json_file : file)
    : M (list row) :=
  payload ← json_load json_file ;
  let alias := py_or (alias payload) (sign payload) in
  let frames := default [] (frames payload) in
  let frames :=
    if truthy limit_frames then slice_to frames (default 0 limit_frames)
    else frames in
  mret (fold_left (fun rows frame => rows ++ [make_row alias frame]) frames rows).

Definition export_dataset (out_path : string) (limit_frames : option Z) : M unit :=
  files ← glob ;
  rows ← for_in_M files (export_file limit_frames) [] ;
  json_dump out_path rows.

End SignClassifier.

(** ** main.py *)

Module Main.

(** The indices of MediaPipe's [PoseLandmark] enumeration that the rule uses. *)
Definition NOSE : Z := 0.
Definition LEFT_WRIST : Z := 15.
Definition RIGHT_WRIST : Z := 16.

(** A pose landmark of MediaPipe. *)
Record landmark : Type := Landmark {
  lm_x : float;
  lm_y : float;
  lm_z : float;
  visibility : float;
}.

(** The body of the loop of [load_landmark_templates]. *)
Definition load_landmark_template (_ : unit) (json_file : file) : M unit :=
  payload ← json_load json_file ;
  let alias := py_or (alias payload) (sign payload) in
  key ← lift (lower_method alias) ;
  store_SIGN_LANDMARKS key payload.

Definition load_landmark_templates : M unit :=
  files ← glob ;
  for_in_M files load_landmark_template tt.

Definition both_hands : string := "양손을 들어 환영 인사를 하고 있어요.".
Definition left_hand : string := "왼손을 들어 인사했어요.".
Definition right_hand : string := "오른손을 들어 인사했어요.".

Definition detect_gestures (landmarks : list landmark) : result (option string) :=
  nose ← py_index landmarks NOSE ;
  let nose_y := lm_y nose in
  left_wrist ← py_index landmarks LEFT_WRIST ;
  right_wrist ← py_index landmarks RIGHT_WRIST ;
  let margin := 0.15%float in
  let visibility_threshold := 0.2%float in
  let left_up := (lm_y left_wrist <? nose_y + margin)%float
                 && (visibility_threshold <? visibility left_wrist)%float in
  let right_up := (lm_y right_wrist <? nose_y + margin)%float
                  && (visibility_threshold <? visibility right_wrist)%float in
  if left_up && right_up then Ok (Some both_hands)
  else if left_up then Ok (Some left_hand)
  else if right_up then Ok (Some right_hand)
  else Ok None.

(** Truth value of a payload: a JSON object is falsy when it has no key. *)
Definition payload_truthy (p : payload) : bool :=
  bool_decide (is_Some (sign p)) || bool_decide (is_Some (alias p)) || bool_decide (is_Some (video p))
  || bool_decide (is_Some (frames_sampled p)) || bool_decide (is_Some (average p))
  || bool_decide (is_Some (frames p)).

Definition get_sign_landmarks (sign : string) : M payload :=
  loaded ← read_SIGN_LANDMARKS ;
  _ ← (if Nat.eqb (size loaded) 0 then load_landmark_templates else mret tt) ;
  loaded ← read_SIGN_LANDMARKS ;
  match loaded !! str_lower sign with
  | Some p =>
      if payload_truthy p then mret p
      else lift (Raise (HTTPException 404 "Sign landmarks not found."))
  | None => lift (Raise (HTTPException 404 "Sign landmarks not found."))
  end.

End Main.

(** ** process_landmarks.py, the part that writes the data directory *)

(** [open(.., "w")] and [json.dump] on a file of the data directory: a file of
    that name is rewritten where it stands, a new one is listed last, and the
    record is read back by [json.load] as it was written.  (The order in
    which [glob] lists files is the file system's; the properties stated of
    [save_landmarks] hold wherever the file is listed.) *)
Fixpoint write_file (dir : list file) (name : string) (p : payload) : list file :=
  match dir with
  | [] => [File name (Some p)]
  | f :: dir' =>
      if String.eqb (path f) name then File name (Some p) :: dir'
      else f :: write_file dir' name p
  end.

Definition dump_payload (name : string) (p : payload) : M unit := fun w =>
  (Ok tt, World (write_file (DATA_DIR w) name p) (SIGN_LANDMARKS w)
             (Write name :: fs_log w) (written w)).

Module ProcessLandmarksStore.

(** [sign] is taken to be a plain file name, without a path separator, so
    that the file written is an entry of the data directory; the path
    returned is given relative to that directory. *)
Definition save_landmarks (sign video_url : string) (frames : list frame)
    (averages : frame) : M string :=
  let payload :=
    Payload (Some sign) (Some (str_lower sign)) (Some video_url)
            (Some (Z.of_nat (length frames))) (Some averages)
            (Some (slice_to frames 50)) in
  let out_path := str_lower sign +:+ "_landmarks.json" in
  _ ← dump_payload out_path payload ;
  mret out_path.

End ProcessLandmarksStore.

(** ** Quantities the specification speaks of *)

(** The sum of one coordinate over the points with id [i] of all the frames,
    taken in frame order, and its quotient by the number of frames. *)
Definition coord_sum (proj : point -> float) (i : Z) (frames : list frame) : float :=
  fold_left PrimFloat.add (proj <$> filter (λ p, pt_id p = i) (concat frames)) 0%float.

Definition coord_mean (proj : point -> float) (i : Z) (frames : list frame) : float :=
  (coord_sum proj i frames / float_of_len (length frames))%float.

(** The row a point adds to the accumulator of [average_landmarks], and what
    row [i] holds once the points [ps] have been added to a row [a]. *)
Definition row_of (p : point) : ProcessLandmarks.vec3 :=
  (pt_x p, pt_y p, get_z_default p).

Definition accumulated (ps : list point) (i : nat) (a : ProcessLandmarks.vec3)
    : ProcessLandmarks.vec3 :=
  fold_left ProcessLandmarks.vadd
    (row_of <$> filter (λ p, pt_id p = Z.of_nat i) ps) a.

(** A point that [average_landmarks] can add to an accumulator of [n] rows:
    its id is a row index and it carries a ["z"]. *)
Definition in_range (n : nat) (p : point) : Prop :=
  0 ≤ pt_id p < Z.of_nat n ∧ is_Some (pt_z p).

(** The order of [<?], [<=?] and [=?] on floats, read off a key: a float
    that is not a NaN has a rank (infinities, negative, zero, positive), an
    exponent and a mantissa, and the comparisons are lexicographic on these. *)
Definition spec_key (x : spec_float) : option (Z * Z * Z) :=
  match x with
  | S754_nan => None
  | S754_infinity true => Some (-2, 0, 0)
  | S754_infinity false => Some (2, 0, 0)
  | S754_zero _ => Some (0, 0, 0)
  | S754_finite true m e => Some (-1, - e, Z.neg m)
  | S754_finite false m e => Some (1, e, Z.pos m)
  end.

Definition key_lt (a b : Z * Z * Z) : Prop :=
  a.1.1 < b.1.1 ∨ (a.1.1 = b.1.1 ∧ (a.1.2 < b.1.2 ∨ (a.1.2 = b.1.2 ∧ a.2 < b.2))).

Definition key_le (a b : Z * Z * Z) : Prop := key_lt a b ∨ a = b.

Definition key_rel (R : Z * Z * Z -> Z * Z * Z -> Prop) (x y : spec_float) : Prop :=
  match spec_key x, spec_key y with
  | Some a, Some b => R a b
  | _, _ => False
  end.

(** The label under which the loaders store a payload: its alias, or else
    its sign, in lower case. *)
Definition label_of (p : payload) : option string :=
  str_lower <$> py_or (alias p) (sign p).

(** A file that the loaders accept: it parses and carries an alias or a sign. *)
Definition loadable (f : file) : bool :=
  match content f with
  | Some p => bool_decide (is_Some (py_or (alias p) (sign p)))
  | None => false
  end.

(** The exception that a file which is not loadable raises. *)
Definition load_error (f : file) : exception :=
  match content f with
  | Some _ => AttributeError
  | None => JSONDecodeError
  end.

(** The world after the directory scan and after the opening of a file. *)
Definition globbed (w : world) : world :=
  World (DATA_DIR w) (SIGN_LANDMARKS w) (Glob :: fs_log w) (written w).

Definition opened (f : file) (w : world) : world :=
  World (DATA_DIR w) (SIGN_LANDMARKS w) (Open (path f) :: fs_log w) (written w).

(** What one loadable file adds to the templates of [load_templates] and to
    [SIGN_LANDMARKS]. *)
Definition add_template (d : dict frame) (f : file) : dict frame :=
  match content f with
  | Some p =>
      match label_of p with
      | Some k => dict_set d k (default [] (average p))
      | None => d
      end
  | None => d
  end.

Definition stored (f : file) (w : world) : world :=
  match content f with
  | Some p =>
      match label_of p with
      | Some k =>
          World (DATA_DIR w) (<[k := p]> (SIGN_LANDMARKS w))
                (Open (path f) :: fs_log w) (written w)
      | None => opened f w
      end
  | None => opened f w
  end.

(** ** A small data directory, used to run the definitions *)

Definition sample_point (i : Z) (a b c : float) : point := Point i a b (Some c).

Definition sample_payload (name : string) (avg : frame) (raw : list frame) : payload :=
  Payload (Some name) (Some (str_lower name)) (Some "video")
          (Some (Z.of_nat (length raw))) (Some avg) (Some raw).

Definition hello_file : file :=
  File "hello_landmarks.json"
    (Some (sample_payload "Hello"
             [sample_point 0 1 2 3; sample_point 1 0 0 0]
             [ [sample_point 0 1 2 3; sample_point 1 0 0 0];
               [sample_point 0 1 2 3; sample_point 1 0 0 0] ])).

Definition thanks_file : file :=
  File "thanks_landmarks.json"
    (Some (sample_payload "Thanks"
             [sample_point 0 0 0 0; sample_point 1 4 0 3]
             [ [sample_point 0 0 0 0; sample_point 1 4 0 2];
               [sample_point 0 0 0 0; sample_point 1 4 0 4];
               [sample_point 0 0 0 0; sample_point 1 4 0 3] ])).

Definition wave_file : file :=
  File "wave_landmarks.json"
    (Some (sample_payload "Wave" [sample_point 0 0 0 0] [ [sample_point 0 0 0 0] ])).

Definition broken_file : file := File "broken_landmarks.json" None.

Definition sample_world : world :=
  World [hello_file; wave_file; thanks_file] ∅ [] [].

(** A live frame of two points, the average of [thanks_file]. *)
Definition sample_frame : frame := [sample_point 0 0 0 0; sample_point 1 4 0 3].

(** The answer of [detect_gestures] counts the left wrist as raised when it
    is the message for both hands or for the left hand, and likewise on the
    right. *)
Definition counts_left (r : option string) : bool :=
  match r with
  | Some m => String.eqb m Main.both_hands || String.eqb m Main.left_hand
  | None => false
  end.

Definition counts_right (r : option string) : bool :=
  match r with
  | Some m => String.eqb m Main.both_hands || String.eqb m Main.right_hand
  | None => false
  end.

Definition sample_pose (nose_y left_y left_v right_y right_v : float)
    : list Main.landmark :=
  [Main.Landmark 0 nose_y 0 1] ++ replicate 14 (Main.Landmark 0 0 0 0) ++
  [Main.Landmark 0 left_y 0 left_v; Main.Landmark 0 right_y 0 right_v] ++
  replicate 16 (Main.Landmark 0 0 0 0).

(** A string of ASCII characters only. *)
Fixpoint is_ascii (s : string) : bool :=
  match s with
  | EmptyString => true
  | String c s' => (N_of_ascii c <? 128)%N && is_ascii s'
  end.

(** The number of directory scans in the log of a world, and the world after
    a sequence of lookups. *)
Definition scans (w : world) : nat :=
  length (List.filter (λ e, match e with Glob => true | _ => false end) (fs_log w)).

Definition lookups (signs : list string) (w : world) : world :=
  fold_left (λ w sign, (Main.get_sign_landmarks sign w).2) signs w.

Definition eszett_file : file :=
  File "ß_landmarks.json" (Some (sample_payload "ß" [] [])).

(** The label [export_dataset] gives to the rows of a file, the frames it
    retains, and the rows it makes of them under a limit. *)
Definition file_label (f : file) : option string :=
  match content f with
  | Some p => py_or (alias p) (sign p)
  | None => None
  end.

Definition file_frames (f : file) : list frame :=
  match content f with
  | Some p => default [] (frames p)
  | None => []
  end.

Definition limited (limit_frames : option Z) (l : list frame) : list frame :=
  if SignClassifier.truthy limit_frames then slice_to l (default 0 limit_frames) else l.

Definition file_rows (limit_frames : option Z) (f : file) : list row :=
  SignClassifier.make_row (file_label f) <$> limited limit_frames (file_frames f).

(** A row with the label [label], and a row that carries a label and, for
    each point of a frame, the three columns of its id, holding the
    coordinates of a point of the frame with that id. *)
Definition has_label (label : option string) (r : row) : bool :=
  match dict_get r "label" with
  | Some (CLabel l) => bool_decide (l = label)
  | _ => false
  end.

Definition carries (r : row) (label : option string) (fr : frame) : Prop :=
  dict_get r "label" = Some (CLabel label) ∧
  ∀ p, p ∈ fr → ∃ q, q ∈ fr ∧ pt_id q = pt_id p ∧
    dict_get r ("x_" +:+ pretty (pt_id p)) = Some (CNum (pt_x q)) ∧
    dict_get r ("y_" +:+ pretty (pt_id p)) = Some (CNum (pt_y q)) ∧
    dict_get r ("z_" +:+ pretty (pt_id p)) = Some (CNum (get_z_default q)).

(** ** Further quantities, for the properties beyond the specification's *)

(** A point that [average_landmarks] accepts on an accumulator of [n] rows:
    its id is a row index for numpy, which counts a negative one from the
    end, and it has a ["z"].  [row_index] is the row the id stands for, and
    [row_sum] the sum of one coordinate over the points of a row. *)
Definition accepted (n : nat) (p : point) : Prop :=
  - Z.of_nat n ≤ pt_id p < Z.of_nat n ∧ is_Some (pt_z p).

Definition row_index (n : nat) (i : Z) : nat := Z.to_nat (i `mod` Z.of_nat n).

Definition row_accumulated (n : nat) (ps : list point) (i : nat)
    (a : ProcessLandmarks.vec3) : ProcessLandmarks.vec3 :=
  fold_left ProcessLandmarks.vadd
    (row_of <$> filter (λ p, row_index n (pt_id p) = i) ps) a.

Definition row_mean (proj : point -> float) (n i : nat) (frames : list frame) : float :=
  (fold_left PrimFloat.add
     (proj <$> filter (λ p, row_index n (pt_id p) = i) (concat frames)) 0
   / float_of_len (length frames))%float.

(** A float that is not below zero, as its specification shows it: a NaN, or
    a zero, a finite number or an infinity without the sign bit. *)
Definition unsigned_sf (x : spec_float) : Prop :=
  match x with
  | S754_nan => True
  | S754_zero s | S754_infinity s | S754_finite s _ _ => s = false
  end.

Definition unsigned (v : float) : Prop := unsigned_sf (Prim2SF v).

(** The key a file is loaded under, the template [load_templates] takes from
    it, and the template of the last file of a directory with a given key. *)
Definition file_key (f : file) : option string := content f ≫= label_of.

Definition payload_template (p : payload) : frame := default [] (average p).

Definition file_template (f : file) : frame :=
  match content f with
  | Some p => payload_template p
  | None => []
  end.

Definition last_template (files : list file) (k : string) : option frame :=
  file_template <$> last (filter (λ f, file_key f = Some k) files).

(** A mapping in which every record sits under its own label. *)
Definition keyed (m : gmap string payload) : Prop :=
  ∀ k p, m !! k = Some p → label_of p = Some k.

(** A data directory as [save_landmarks] builds it: file names are pairwise
    different, and every file parses, has a label, and is named after it. *)
Definition canonical (dir : list file) : Prop :=
  NoDup (path <$> dir) ∧
  ∀ f, f ∈ dir → ∃ k, file_key f = Some k ∧ path f = k +:+ "_landmarks.json".

(** The record that [save_landmarks] writes. *)
Definition saved_payload (sign video_url : string) (frames : list frame)
    (averages : frame) : payload :=
  Payload (Some sign) (Some (str_lower sign)) (Some video_url)
          (Some (Z.of_nat (length frames))) (Some averages)
          (Some (take 50 frames)).

(** The three columns that [export_dataset] makes of a point. *)
Definition columns (p : point) : list (string * cell) :=
  [("x_" +:+ pretty (pt_id p), CNum (pt_x p));
   ("y_" +:+ pretty (pt_id p), CNum (pt_y p));
   ("z_" +:+ pretty (pt_id p), CNum (get_z_default p))].

(** The number of frames of a record of [R] raw frames that [export_dataset]
    turns into rows under a limit. *)
Definition limit_count (limit_frames : option Z) (R : nat) : nat :=
  match limit_frames with
  | None => R
  | Some K =>
      if K =? 0 then R
      else if K <? 0 then (R - Z.to_nat (- K))%nat
      else Nat.min (Z.to_nat K) R
  end.

(** * Properties *)

(** ** Loops and comprehensions *)

Section Loops.
Context {A B S : Type}.

Lemma for_in_app (body : S -> A -> result S) l1 l2 s :
  for_in (l1 ++ l2) body s = s' ← for_in l1 body s ; for_in l2 body s'.
Proof.
  revert s; induction l1 as [|a l1 IH]; intros s; simpl; [done|].
  destruct (body s a); simpl; [apply IH | done].
Qed.

Lemma for_in_concat (body : S -> A -> result S) (ls : list (list A)) s :
  for_in ls (λ s l, for_in l body s) s = for_in (concat ls) body s.
Proof.
  revert s; induction ls as [|l ls IH]; intros s; simpl; [done|].
  rewrite for_in_app. destruct (for_in l body s); simpl; [apply IH | done].
Qed.

Lemma comprehension_ok (f : A -> result B) (g : A -> B) l :
  (∀ a, a ∈ l → f a = Ok (g a)) → comprehension f l = Ok (g <$> l).
Proof.
  induction l as [|a l IH]; intros Hf; simpl; [done|].
  rewrite (Hf a) by left. simpl. rewrite IH; [done|].
  intros b Hb. apply Hf. by right.
Qed.

End Loops.

Lemma py_index_nat {A} (l : list A) (i : nat) (a : A) :
  l !! i = Some a → py_index l (Z.of_nat i) = Ok a.
Proof.
  intros Hi. pose proof (lookup_lt_Some _ _ _ Hi) as Hlt.
  unfold py_index.
  replace (Z.of_nat i <? 0) with false by (symmetry; apply Z.ltb_ge; lia).
  replace (0 <=? Z.of_nat i) with true by (symmetry; apply Z.leb_le; lia).
  replace (Z.of_nat i <? Z.of_nat (length l)) with true
    by (symmetry; apply Z.ltb_lt; lia).
  simpl. by rewrite Nat2Z.id, Hi.
Qed.

(** ** Averaging *)

Section Averaging.
Import ProcessLandmarks.

Lemma accumulate_in_range accum p :
  in_range (length accum) p →
  ∃ row, accum !! Z.to_nat (pt_id p) = Some row ∧
    accumulate accum p = Ok (<[Z.to_nat (pt_id p) := vadd row (row_of p)]> accum).
Proof.
  intros [[Hlo Hhi] [z Hz]].
  destruct (lookup_lt_is_Some_2 accum (Z.to_nat (pt_id p))) as [row Hrow]; [lia|].
  exists row. split; [done|].
  unfold accumulate, np_row.
  replace (0 <=? pt_id p) with true by (symmetry; apply Z.leb_le; lia).
  replace (pt_id p <? Z.of_nat (length accum)) with true
    by (symmetry; apply Z.ltb_lt; lia).
  simpl. unfold get_z, row_of, get_z_default. rewrite Hz. simpl. by rewrite Hrow.
Qed.

Lemma for_in_accumulate ps accum :
  Forall (in_range (length accum)) ps →
  for_in ps accumulate accum = Ok (imap (accumulated ps) accum).
Proof.
  revert accum; induction ps as [|p ps IH]; intros accum Hps.
  - simpl. f_equal. symmetry. apply list_eq; intros i.
    rewrite list_lookup_imap. by destruct (accum !! i).
  - inversion Hps as [|? ? Hp Hps']; subst.
    destruct (accumulate_in_range accum p Hp) as (row & Hrow & Hacc).
    simpl. rewrite Hacc. simpl. rewrite IH by (by rewrite length_insert).
    f_equal. apply list_eq; intros i. rewrite !list_lookup_imap.
    unfold accumulated. rewrite filter_cons.
    destruct (decide (i = Z.to_nat (pt_id p))) as [->|Hne].
    + rewrite list_lookup_insert_eq by (by eapply lookup_lt_Some).
      rewrite Hrow. simpl. destruct Hp as [[? ?] _].
      rewrite decide_True by lia. done.
    + rewrite list_lookup_insert_ne by done.
      destruct Hp as [[? ?] _]. rewrite decide_False by lia. done.
Qed.

Lemma fold_vadd (rows : list point) a0 a1 a2 :
  fold_left vadd (row_of <$> rows) (a0, a1, a2) =
  (fold_left PrimFloat.add (pt_x <$> rows) a0,
   fold_left PrimFloat.add (pt_y <$> rows) a1,
   fold_left PrimFloat.add (get_z_default <$> rows) a2).
Proof.
  revert a0 a1 a2; induction rows as [|p rows IH]; intros; simpl; [done|].
  by rewrite IH.
Qed.
Lemma np_zeros_lookup (n i : nat) : (i < n)%nat → np_zeros n !! i = Some vzero.
Proof. intros Hi. by apply lookup_replicate_2. Qed.

Lemma accumulated_zero ps i :
  accumulated ps i vzero =
  (fold_left PrimFloat.add (pt_x <$> filter (λ p, pt_id p = Z.of_nat i) ps) 0%float,
   fold_left PrimFloat.add (pt_y <$> filter (λ p, pt_id p = Z.of_nat i) ps) 0%float,
   fold_left PrimFloat.add
     (get_z_default <$> filter (λ p, pt_id p = Z.of_nat i) ps) 0%float).
Proof. apply fold_vadd. Qed.

(** C1, as amended: for a non-empty sequence of frames whose points all
    carry x, y and z and have their id among the row indices
    [0 .. len(frames[0]) - 1], [average_landmarks] returns one point per
    index [i] of that range, with id [i] and with each coordinate equal to
    the sum of that coordinate over the points with id [i] of all the
    frames, divided by the number of frames. *)
Theorem average_landmarks_mean (frames : list frame) :
  frames ≠ [] →
  Forall (Forall (in_range (length (hd [] frames)))) frames →
  average_landmarks frames =
    Ok ((λ i : nat,
           Point (Z.of_nat i)
             (coord_mean pt_x (Z.of_nat i) frames)
             (coord_mean pt_y (Z.of_nat i) frames)
             (Some (coord_mean get_z_default (Z.of_nat i) frames)))
          <$> seq 0 (length (hd [] frames))).
Proof.
  destruct frames as [|frame0 rest]; [done|]. intros _ Hin.
  unfold average_landmarks. simpl hd in *.
  rewrite (for_in_concat (A:=point) accumulate), for_in_accumulate; last first.
  { unfold np_zeros. rewrite length_replicate.
    apply Forall_concat, Hin. }
  change (Ok ?a ≫= ?k) with (k a).
  apply comprehension_ok. intros i Hi.
  apply elem_of_seq in Hi as [_ Hi]. simpl in Hi.
  rewrite (py_index_nat _ i (accumulated (concat (frame0 :: rest)) i vzero)); last first.
  { rewrite list_lookup_imap, np_zeros_lookup by done. done. }
  change (Ok ?a ≫= ?k) with (k a).
  rewrite accumulated_zero. done.
Qed.

Lemma average_landmarks_mean_witness :
  average_landmarks
    [ [Point 0 1 2 (Some 3%float); Point 1 4 5 (Some 6%float)];
      [Point 1 0 1 (Some 0%float); Point 0 3 2 (Some 1%float)] ] =
  Ok [ Point 0 2 2 (Some 2%float); Point 1 2 3 (Some 3%float) ].
Proof.
  rewrite average_landmarks_mean.
  - vm_compute. reflexivity.
  - discriminate.
  - repeat constructor; simpl; lia || eauto.
Defined.

(** C1, as stated, fails: the only frame holds a single point, whose id 5
    therefore occurs in the first frame, and no frame is returned. *)
Lemma average_landmarks_first_frame_ids_not_enough :
  let frames := [ [Point 5 1 1 (Some 1%float)] ] in
  frames ≠ [] ∧
  (∀ f p, f ∈ frames → p ∈ f → ∃ q, q ∈ hd [] frames ∧ pt_id q = pt_id p) ∧
  average_landmarks frames = Raise IndexError.
Proof.
  split; [discriminate|]. split; [|reflexivity].
  intros f p Hf Hp. apply list_elem_of_singleton in Hf as ->.
  exists p. split; [exact Hp | reflexivity].
Qed.
End Averaging.

(** ** The order on floats *)

Section FloatOrder.

Ltac by_cases x y :=
  destruct x as [[]|[]| |[] ? ?], y as [[]|[]| |[] ? ?]; simpl;
  unfold key_le, key_lt; simpl;
  change (Pos.compare_cont Eq ?a ?b) with (Pos.compare a b);
  repeat match goal with
  | |- context [Z.compare ?a ?b] => destruct (Z.compare_spec a b)
  | |- context [Pos.compare ?a ?b] => destruct (Pos.compare_spec a b)
  end; simpl;
  (split; intros HH; try done; try lia; try (by subst; right); try (by subst);
   try (exfalso; simplify_eq; lia);
   try (exfalso; destruct HH as [HH|HH]; [lia | simplify_eq; lia])).

Lemma SFltb_key x y : SFltb x y = true ↔ key_rel key_lt x y.
Proof. unfold SFltb, SFcompare, key_rel. by_cases x y. Qed.

Lemma SFleb_key x y : SFleb x y = true ↔ key_rel key_le x y.
Proof. unfold SFleb, SFcompare, key_rel. by_cases x y. Qed.

Lemma SFeqb_key x y : SFeqb x y = true ↔ key_rel eq x y.
Proof. unfold SFeqb, SFcompare, key_rel. by_cases x y. Qed.

Lemma ltb_key x y : (x <? y)%float = true ↔ key_rel key_lt (Prim2SF x) (Prim2SF y).
Proof. rewrite FloatAxioms.ltb_spec. apply SFltb_key. Qed.

Lemma leb_key x y : (x <=? y)%float = true ↔ key_rel key_le (Prim2SF x) (Prim2SF y).
Proof. rewrite FloatAxioms.leb_spec. apply SFleb_key. Qed.

Lemma eqb_key x y : (x =? y)%float = true ↔ key_rel eq (Prim2SF x) (Prim2SF y).
Proof. rewrite FloatAxioms.eqb_spec. apply SFeqb_key. Qed.

Ltac to_keys :=
  repeat match goal with
  | H : (_ <? _)%float = false |- _ => apply not_true_iff_false in H
  | |- (_ <? _)%float = false => apply not_true_iff_false
  | H : (_ <=? _)%float = false |- _ => apply not_true_iff_false in H
  | |- (_ <=? _)%float = false => apply not_true_iff_false
  end;
  rewrite ?ltb_key, ?leb_key, ?eqb_key in *;
  unfold key_rel, key_le, key_lt in *;
  repeat match goal with
  | |- context [spec_key (Prim2SF ?x)] => destruct (spec_key (Prim2SF x)) as [[[? ?] ?]|]
  | H : context [spec_key (Prim2SF ?x)] |- _ =>
      destruct (spec_key (Prim2SF x)) as [[[? ?] ?]|]
  end; simpl in *.

Lemma ltb_irrefl x : (x <? x)%float = false.
Proof. to_keys; intros H; lia. Qed.

Lemma ltb_trans x y z :
  (x <? y)%float = true → (y <? z)%float = true → (x <? z)%float = true.
Proof. intros Hxy Hyz. to_keys; lia. Qed.

Lemma leb_ltb_trans x y z :
  (x <=? y)%float = true → (y <? z)%float = true → (x <? z)%float = true.
Proof.
  intros Hxy Hyz. to_keys; try lia.
  destruct Hxy as [Hxy|Hxy]; [lia | simplify_eq; lia].
Qed.

Lemma ltb_not_leb x y : (x <? y)%float = true → (y <=? x)%float = false.
Proof.
  intros Hxy. to_keys; try tauto.
  intros [H|H]; [lia | simplify_eq; lia].
Qed.

Lemma eqb_ltb_trans x y z :
  (x =? y)%float = true → (y <? z)%float = true → (x <? z)%float = true.
Proof. intros Hxy Hyz. to_keys; try lia. simplify_eq. lia. Qed.


Lemma zero_ltb_infinity : (0 <? infinity)%float = true.
Proof. reflexivity. Qed.

End FloatOrder.

(** ** Loops over the files of the data directory *)

Section FileLoops.
Context {A S : Type}.

Lemma for_in_M_ok (body : S -> A -> M S) (step : S -> A -> S)
    (eff : A -> world -> world) (l : list A) :
  (∀ a s w, a ∈ l → body s a w = (Ok (step s a), eff a w)) →
  ∀ s w, for_in_M l body s w = (Ok (fold_left step l s), fold_left (flip eff) l w).
Proof.
  induction l as [|a l IH]; intros Hbody s w; simpl; [done|].
  unfold mbind, M_bind. rewrite Hbody by left.
  apply IH. intros. apply Hbody. by right.
Qed.

Lemma for_in_M_raise (body : S -> A -> M S) (step : S -> A -> S)
    (eff : A -> world -> world) (l1 l2 : list A) (a : A) (e : exception) :
  (∀ b s w, b ∈ l1 → body s b w = (Ok (step s b), eff b w)) →
  (∀ s w, body s a w = (Raise e, eff a w)) →
  ∀ s w, for_in_M (l1 ++ a :: l2) body s w =
         (Raise e, eff a (fold_left (flip eff) l1 w)).
Proof.
  induction l1 as [|b l1 IH]; intros Hok Hbad s w; simpl.
  - unfold mbind, M_bind. by rewrite Hbad.
  - unfold mbind, M_bind. rewrite Hok by left.
    apply IH; [|done]. intros. apply Hok. by right.
Qed.
End FileLoops.

Lemma loadable_inv f :
  loadable f = true →
  ∃ p a, content f = Some p ∧ py_or (alias p) (sign p) = Some a ∧
         label_of p = Some (str_lower a).
Proof.
  unfold loadable, label_of. destruct (content f) as [p|]; [|done].
  intros [a Ha]%bool_decide_eq_true. exists p, a. by rewrite Ha.
Qed.

Lemma not_loadable_inv f :
  loadable f = false →
  content f = None ∨ ∃ p, content f = Some p ∧ py_or (alias p) (sign p) = None.
Proof.
  unfold loadable. destruct (content f) as [p|]; [|by left].
  intros Hn%bool_decide_eq_false. right. exists p. split; [done|].
  destruct (py_or (alias p) (sign p)); [|done]. by destruct Hn.
Qed.

Section Loading.
Import SignClassifier Main.

Lemma glob_eq w : glob w = (Ok (DATA_DIR w), globbed w).
Proof. reflexivity. Qed.

Lemma load_template_ok templates f w :
  loadable f = true →
  load_template templates f w = (Ok (add_template templates f), opened f w).
Proof.
  intros (p & a & Hp & Ha & Hl)%loadable_inv.
  unfold load_template, add_template, json_load, log, lift, mbind, M_bind, opened.
  simpl. rewrite Hp, Hl. simpl. by rewrite Ha.
Qed.

Lemma load_template_raise templates f w :
  loadable f = false →
  load_template templates f w = (Raise (load_error f), opened f w).
Proof.
  intros Hf. unfold load_template, load_error, json_load, log, lift, mbind,
    M_bind, opened. simpl.
  destruct (not_loadable_inv f Hf) as [Hc|(p & Hc & Ha)]; rewrite Hc; simpl;
    [done|]. by rewrite Ha.
Qed.

Lemma load_landmark_template_ok u f w :
  loadable f = true →
  load_landmark_template u f w = (Ok tt, stored f w).
Proof.
  intros (p & a & Hp & Ha & Hl)%loadable_inv.
  unfold load_landmark_template, stored, json_load, log, lift, mbind, M_bind,
    store_SIGN_LANDMARKS. simpl. rewrite Hp, Hl. simpl. by rewrite Ha.
Qed.

Lemma load_landmark_template_raise u f w :
  loadable f = false →
  load_landmark_template u f w = (Raise (load_error f), opened f w).
Proof.
  intros Hf. unfold load_landmark_template, load_error, json_load, log, lift,
    mbind, M_bind, opened. simpl.
  destruct (not_loadable_inv f Hf) as [Hc|(p & Hc & Ha)]; rewrite Hc; simpl;
    [done|]. by rewrite Ha.
Qed.

Lemma load_templates_ok w :
  Forall (λ f, loadable f = true) (DATA_DIR w) →
  load_templates w =
    (Ok (fold_left add_template (DATA_DIR w) []),
     fold_left (flip opened) (DATA_DIR w) (globbed w)).
Proof.
  intros Hall. unfold load_templates, glob, mbind, M_bind.
  apply (for_in_M_ok load_template add_template opened).
  intros f s w' Hf. apply load_template_ok.
  by apply (proj1 (Forall_forall _ _) Hall).
Qed.

Lemma load_templates_raise w before f after :
  DATA_DIR w = before ++ f :: after →
  Forall (λ f, loadable f = true) before →
  loadable f = false →
  load_templates w =
    (Raise (load_error f), opened f (fold_left (flip opened) before (globbed w))).
Proof.
  intros Hdir Hall Hf. unfold load_templates, mbind, M_bind.
  rewrite glob_eq. cbv beta iota. rewrite Hdir.
  apply (for_in_M_raise load_template add_template opened).
  - intros b s w' Hb. apply load_template_ok.
    by apply (proj1 (Forall_forall _ _) Hall).
  - intros. by apply load_template_raise.
Qed.

Lemma load_landmark_templates_ok w :
  Forall (λ f, loadable f = true) (DATA_DIR w) →
  load_landmark_templates w =
    (Ok tt, fold_left (flip stored) (DATA_DIR w) (globbed w)).
Proof.
  intros Hall. unfold load_landmark_templates, glob, mbind, M_bind.
  rewrite (for_in_M_ok load_landmark_template (λ _ _, tt) stored).
  - by destruct (fold_left (λ (_ : ()) (_ : file), ()) (DATA_DIR w) ()).
  - intros f [] w' Hf. apply load_landmark_template_ok.
    by apply (proj1 (Forall_forall _ _) Hall).
Qed.

Lemma load_landmark_templates_raise w before f after :
  DATA_DIR w = before ++ f :: after →
  Forall (λ f, loadable f = true) before →
  loadable f = false →
  load_landmark_templates w =
    (Raise (load_error f), opened f (fold_left (flip stored) before (globbed w))).
Proof.
  intros Hdir Hall Hf. unfold load_landmark_templates, mbind, M_bind.
  rewrite glob_eq. cbv beta iota. rewrite Hdir.
  rewrite (for_in_M_raise load_landmark_template (λ _ _, tt)
             (λ g w', if loadable g then stored g w' else opened g w')
             before after f (load_error f)).
  - rewrite Hf. do 2 f_equal.
    clear Hdir. generalize (globbed w). induction Hall as [|g l Hg _ IH];
      intros w0; simpl; [done|]. rewrite IH. f_equal. unfold flip. by rewrite Hg.
  - intros b [] w' Hb. rewrite (proj1 (Forall_forall _ _) Hall b Hb).
    apply load_landmark_template_ok. by apply (proj1 (Forall_forall _ _) Hall).
  - intros [] w'. rewrite Hf. by apply load_landmark_template_raise.
Qed.

End Loading.

(** ** Dictionaries *)

Section Dict.
Context {V : Type}.
Implicit Types (d : dict V) (k : string) (v : V).

Lemma dict_get_set_eq d k v : dict_get (dict_set d k v) k = Some v.
Proof.
  induction d as [|[k' v'] d IH]; simpl.
  - by rewrite String.eqb_refl.
  - destruct (String.eqb k' k) eqn:Hk; simpl; by rewrite Hk.
Qed.

Lemma dict_get_set_ne d k k' v : k ≠ k' → dict_get (dict_set d k v) k' = dict_get d k'.
Proof.
  intros Hne. induction d as [|[k0 v0] d IH]; simpl.
  - by rewrite (proj2 (String.eqb_neq k k')).
  - destruct (String.eqb k0 k) eqn:Hk; simpl.
    + apply String.eqb_eq in Hk as ->.
      by rewrite (proj2 (String.eqb_neq k k')).
    + destruct (String.eqb k0 k'); [done | apply IH].
Qed.

Lemma dict_set_keys d k v :
  (dict_set d k v).*1 = d.*1 ∨ ((k ∉ d.*1) ∧ (dict_set d k v).*1 = d.*1 ++ [k]).
Proof.
  induction d as [|[k' v'] d IH]; csimpl.
  - right. split; [apply not_elem_of_nil | done].
  - destruct (String.eqb k' k) eqn:Hk; csimpl; [by left|].
    apply String.eqb_neq in Hk.
    destruct IH as [->|[Hnotin ->]]; [by left|]. right. split; [|done].
    apply not_elem_of_cons. split; [congruence | done].
Qed.

Lemma dict_set_NoDup d k v : NoDup d.*1 → NoDup (dict_set d k v).*1.
Proof.
  intros Hd. destruct (dict_set_keys d k v) as [->|[Hk ->]]; [done|].
  apply NoDup_app. split; [done|]. split; [|apply NoDup_singleton].
  intros x Hx ->%list_elem_of_singleton. done.
Qed.

Lemma dict_get_elem_of d k v : NoDup d.*1 → (k, v) ∈ d → dict_get d k = Some v.
Proof.
  induction d as [|[k' v'] d IH]; csimpl; intros Hd Hin.
  - by apply elem_of_nil in Hin.
  - apply NoDup_cons in Hd as [Hk' Hd].
    apply elem_of_cons in Hin as [[= <- <-]|Hin].
    + by rewrite String.eqb_refl.
    + destruct (String.eqb k' k) eqn:Hk; [|by apply IH].
      apply String.eqb_eq in Hk as ->. destruct Hk'.
      apply list_elem_of_fmap. by exists (k, v).
Qed.
End Dict.

(** ** The matcher *)

Section Matcher.
Import SignClassifier.
Implicit Types (landmarks template : frame) (best : option string * float).
#[local] Arguments classify_step : simpl never.
#[local] Arguments score : simpl never.

Lemma for_in_M_inv {A S} (P : S -> Prop) (body : S -> A -> M S) (l : list A) :
  (∀ s a w s' w', P s → body s a w = (Ok s', w') → P s') →
  ∀ s w s' w', P s → for_in_M l body s w = (Ok s', w') → P s'.
Proof.
  intros Hbody. induction l as [|a l IH]; intros s w s' w' Hs; simpl.
  - by intros [= <- _].
  - unfold mbind, M_bind. destruct (body s a w) as [[s1|e] w1] eqn:Hb; [|done].
    apply IH. by eapply Hbody.
Qed.

Lemma load_templates_NoDup w templates w' :
  load_templates w = (Ok templates, w') → NoDup templates.*1.
Proof.
  unfold load_templates, mbind, M_bind. rewrite glob_eq. cbv beta iota.
  apply (for_in_M_inv (λ d : dict frame, NoDup d.*1)); [|apply NoDup_nil_2].
  intros d f w1 d' w1' Hd. destruct (loadable f) eqn:Hf.
  - rewrite load_template_ok by done. intros [= <- _].
    unfold add_template. destruct (content f) as [p|]; [|done].
    destruct (label_of p); [by apply dict_set_NoDup | done].
  - by rewrite load_template_raise.
Qed.

Lemma classify_step_skip landmarks best label template :
  length template ≠ length landmarks →
  classify_step landmarks best (label, template) = Ok best.
Proof.
  intros Hne. unfold classify_step.
  by rewrite (proj2 (Nat.eqb_neq _ _) Hne).
Qed.

Lemma classify_step_scored landmarks best label template :
  length template = length landmarks →
  classify_step landmarks best (label, template) =
    s ← score landmarks template ;
    if (s <? best.2)%float then Ok (Some label, s) else Ok best.
Proof.
  intros Heq. unfold classify_step.
  by rewrite (proj2 (Nat.eqb_eq _ _) Heq).
Qed.

(** Templates of another length play no part in the loop. *)
Lemma classify_loop_filter landmarks (items : list (string * frame)) best :
  for_in items (classify_step landmarks) best =
  for_in (filter (λ it, length it.2 = length landmarks) items)
         (classify_step landmarks) best.
Proof.
  revert best; induction items as [|[l t] items IH]; intros best; [done|].
  rewrite filter_cons. simpl. destruct (decide (length t = length landmarks)).
  - simpl. destruct (classify_step landmarks best (l, t)); simpl; [apply IH|done].
  - rewrite classify_step_skip by done. simpl. apply IH.
Qed.

(** The loop either keeps its initial pair, no compatible template scoring
    below it, or ends on the first compatible template of least score. *)
Lemma classify_loop_spec landmarks (items : list (string * frame)) best r :
  for_in items (classify_step landmarks) best = Ok r →
  (r = best ∧
   ∀ l t, (l, t) ∈ items → length t = length landmarks →
     ∃ s, score landmarks t = Ok s ∧ (s <? best.2)%float = false)
  ∨
  (∃ before l t after s,
     items = before ++ (l, t) :: after ∧ r = (Some l, s) ∧
     length t = length landmarks ∧ score landmarks t = Ok s ∧
     (s <? best.2)%float = true ∧
     (∀ l' t', (l', t') ∈ before → length t' = length landmarks →
        ∃ s', score landmarks t' = Ok s' ∧ (s' <=? s)%float = false) ∧
     (∀ l' t', (l', t') ∈ after → length t' = length landmarks →
        ∃ s', score landmarks t' = Ok s' ∧ (s' <? s)%float = false)).
Proof.
  revert best; induction items as [|[l0 t0] items IH]; intros best; simpl.
  { intros [= <-]. left. split; [done|]. intros l t Hin.
    by apply elem_of_nil in Hin. }
  destruct (decide (length t0 = length landmarks)) as [Hc|Hc].
  2:{ rewrite classify_step_skip by done. simpl. intros Hr.
      destruct (IH _ Hr) as [[-> Hall]|(before & l & t & after & s & -> & -> & H)].
      - left. split; [done|]. intros l t [[= -> ->]|Hin]%elem_of_cons Ht;
          [done | by eapply Hall].
      - right. exists ((l0, t0) :: before), l, t, after, s.
        destruct H as (? & ? & ? & Hb & ?). repeat split; try done.
        intros l' t' [[= -> ->]|Hin]%elem_of_cons Ht; [done | by eapply Hb]. }
  rewrite classify_step_scored by done.
  destruct (score landmarks t0) as [s0|e] eqn:Hs0; simpl; [|done].
  destruct (s0 <? best.2)%float eqn:Hlt; intros Hr.
  - destruct (IH _ Hr) as [[-> Hall]|(before & l & t & after & s & -> & -> & H)].
    + right. exists [], l0, t0, items, s0. repeat split; try done.
      intros l' t' Hin. by apply elem_of_nil in Hin.
    + right. exists ((l0, t0) :: before), l, t, after, s.
      destruct H as (? & ? & Hs & Hb & ?). simpl in Hs. repeat split; try done.
      * by eapply ltb_trans.
      * intros l' t' [[= -> ->]|Hin]%elem_of_cons Ht; [|by eapply Hb].
        exists s0. split; [done|]. by apply ltb_not_leb.
  - destruct (IH _ Hr) as [[-> Hall]|(before & l & t & after & s & -> & -> & H)].
    + left. split; [done|]. intros l t [[= -> ->]|Hin]%elem_of_cons Ht;
        [by exists s0 | by eapply Hall].
    + right. exists ((l0, t0) :: before), l, t, after, s.
      destruct H as (? & ? & Hs & Hb & ?). repeat split; try done.
      intros l' t' [[= -> ->]|Hin]%elem_of_cons Ht; [|by eapply Hb].
      exists s0. split; [done|].
      destruct (s0 <=? s)%float eqn:Hle; [|done].
      by rewrite (leb_ltb_trans _ _ _ Hle Hs) in Hlt.
Qed.

(** What [classify] computes once the templates are loaded. *)
Lemma classify_inv landmarks w r w' :
  classify landmarks w = (Ok r, w') →
  ∃ templates, load_templates w = (Ok templates, w') ∧
    ((templates = [] ∨ landmarks = []) ∧ r = None ∨
     landmarks ≠ [] ∧
     ∃ best, for_in templates (classify_step landmarks) (None, infinity) = Ok best
             ∧ r = best.1).
Proof.
  unfold classify, mbind at 1, M_bind.
  destruct (load_templates w) as [[templates|e] w1]; [|done].
  intros Hr. exists templates.
  destruct templates as [|it templates]; [|destruct landmarks as [|p landmarks]].
  - injection Hr as <- <-. split; [done|]. left. split; [by left | done].
  - injection Hr as <- <-. split; [done|]. left. split; [by right | done].
  - revert Hr. unfold mbind, M_bind, lift.
    destruct (for_in _ _ _) as [best|e] eqn:Hloop; [|done].
    intros [= <- <-]. split; [done|]. right. split; [done|]. by exists best.
Qed.

End Matcher.

Section MatcherClaims.
Import SignClassifier.
Implicit Types (landmarks template : frame) (best : option string * float).
#[local] Arguments classify_step : simpl never.
#[local] Arguments score : simpl never.

(** C2: a label that [classify] returns is the key of a template with as many
    points as the live frame; and templates of any other length are skipped
    altogether: the loop runs as it does on the store without them, so they
    are neither scored nor selected. *)
Theorem classify_compatibility_gate landmarks :
  (∀ w l w', classify landmarks w = (Ok (Some l), w') →
     ∃ templates t, load_templates w = (Ok templates, w') ∧
       dict_get templates l = Some t ∧ length t = length landmarks)
  ∧
  (∀ (items : list (string * frame)) best,
     for_in items (classify_step landmarks) best =
     for_in (filter (λ it, length it.2 = length landmarks) items)
            (classify_step landmarks) best).
Proof.
  split; [|apply classify_loop_filter].
  intros w l w' Hc.
  destruct (classify_inv _ _ _ _ Hc) as (templates & Hload & [[_ [=]]|[_ H]]).
  destruct H as (best & Hloop & Hbest). exists templates.
  destruct (classify_loop_spec _ _ _ _ Hloop)
    as [[-> _]|(before & l1 & t & after & s & -> & -> & Ht & _)]; [done|].
  simpl in Hbest. injection Hbest as ->. exists t. split; [done|]. split; [|done].
  apply dict_get_elem_of; [by eapply load_templates_NoDup|].
  apply elem_of_app. right. by left.
Qed.

Lemma classify_compatibility_gate_witness :
  ∃ templates t,
    load_templates sample_world =
      (Ok templates, (classify sample_frame sample_world).2) ∧
    dict_get templates "thanks" = Some t ∧
    length t = length sample_frame.
Proof.
  apply (proj1 (classify_compatibility_gate sample_frame)).
  vm_compute. reflexivity.
Defined.







End MatcherClaims.

(** ** The gesture rule *)

Section GestureRule.
Import Main.

(** C6: [detect_gestures] counts a wrist as raised exactly when
    [wrist.y < nose.y + 0.15] and [wrist.visibility > 0.2]; so a wrist with
    [y] equal to [nose.y + 0.15] is not raised, and one with [y] below that
    sum and a visibility above 0.2 is. *)
Theorem raised_wrist_rule (landmarks : list landmark) (nose left_wrist right_wrist : landmark) :
  landmarks !! 0%nat = Some nose →
  landmarks !! 15%nat = Some left_wrist →
  landmarks !! 16%nat = Some right_wrist →
  ∃ r, detect_gestures landmarks = Ok r ∧
    (counts_left r = true ↔
       (lm_y left_wrist <? lm_y nose + 0.15)%float = true ∧
       (0.2 <? visibility left_wrist)%float = true) ∧
    (counts_right r = true ↔
       (lm_y right_wrist <? lm_y nose + 0.15)%float = true ∧
       (0.2 <? visibility right_wrist)%float = true) ∧
    (lm_y left_wrist = (lm_y nose + 0.15)%float → counts_left r = false) ∧
    (lm_y right_wrist = (lm_y nose + 0.15)%float → counts_right r = false).
Proof.
  intros Hn Hl Hr. unfold detect_gestures.
  change NOSE with (Z.of_nat 0). change LEFT_WRIST with (Z.of_nat 15).
  change RIGHT_WRIST with (Z.of_nat 16).
  rewrite (py_index_nat landmarks 0 nose Hn). simpl.
  rewrite (py_index_nat landmarks 15 left_wrist Hl). simpl.
  rewrite (py_index_nat landmarks 16 right_wrist Hr). simpl.
  pose proof (ltb_irrefl (lm_y nose + 0.15)) as Hirr.
  destruct (lm_y left_wrist <? lm_y nose + 0.15)%float eqn:Hly,
           (0.2 <? visibility left_wrist)%float eqn:Hlv,
           (lm_y right_wrist <? lm_y nose + 0.15)%float eqn:Hry,
           (0.2 <? visibility right_wrist)%float eqn:Hrv;
    simpl; eexists; (split; [reflexivity|]);
    (split; [vm_compute; intuition congruence|]);
    (split; [vm_compute; intuition congruence|]);
    (split; intros Heq; [rewrite Heq in Hly | rewrite Heq in Hry]);
    try congruence; reflexivity.
Qed.

Lemma raised_wrist_rule_witness :
  ∃ r, detect_gestures (sample_pose 0.5 0.65 0.9 0.6 0.9) = Ok r ∧
    (counts_left r = true ↔
       (0.65 <? 0.5 + 0.15)%float = true ∧ (0.2 <? 0.9)%float = true) ∧
    (counts_right r = true ↔
       (0.6 <? 0.5 + 0.15)%float = true ∧ (0.2 <? 0.9)%float = true) ∧
    (0.65%float = (0.5 + 0.15)%float → counts_left r = false) ∧
    (0.6%float = (0.5 + 0.15)%float → counts_right r = false).
Proof.
  apply (raised_wrist_rule (sample_pose 0.5 0.65 0.9 0.6 0.9)
           (Landmark 0 0.5 0 1) (Landmark 0 0.65 0 0.9) (Landmark 0 0.6 0 0.9));
    reflexivity.
Defined.

End GestureRule.

(** ** Loading the store *)

Section StoreLoading.
Import SignClassifier Main.

Lemma stored_lookup_mono f w k :
  is_Some (SIGN_LANDMARKS w !! k) → is_Some (SIGN_LANDMARKS (stored f w) !! k).
Proof.
  intros Hk. unfold stored. destruct (content f) as [p|]; [|done].
  destruct (label_of p) as [k'|]; [|done]. simpl.
  destruct (decide (k' = k)) as [->|Hne].
  - rewrite lookup_insert_eq. by eexists.
  - by rewrite lookup_insert_ne.
Qed.

Lemma fold_stored_lookup_mono files w k :
  is_Some (SIGN_LANDMARKS w !! k) →
  is_Some (SIGN_LANDMARKS (fold_left (flip stored) files w) !! k).
Proof.
  revert w; induction files as [|f files IH]; intros w Hk; simpl; [done|].
  apply IH. by apply stored_lookup_mono.
Qed.

Lemma fold_stored_available files w f p k :
  f ∈ files → content f = Some p → label_of p = Some k →
  is_Some (SIGN_LANDMARKS (fold_left (flip stored) files w) !! k).
Proof.
  revert w; induction files as [|g files IH]; intros w Hin Hp Hk.
  - by apply elem_of_nil in Hin.
  - simpl. apply elem_of_cons in Hin as [->|Hin]; [|by apply IH].
    apply fold_stored_lookup_mono. unfold flip, stored. rewrite Hp, Hk. simpl.
    rewrite lookup_insert_eq. by eexists.
Qed.

Lemma add_template_get_mono (d : dict frame) f k :
  is_Some (dict_get (add_template d f) k) ∨ dict_get d k = None.
Proof.
  destruct (dict_get d k) as [v|] eqn:Hd; [left | by right].
  unfold add_template. destruct (content f) as [p|]; [|by rewrite Hd].
  destruct (label_of p) as [k'|]; [|by rewrite Hd].
  destruct (decide (k' = k)) as [->|Hne].
  - rewrite dict_get_set_eq. by eexists.
  - rewrite dict_get_set_ne, Hd by done. by eexists.
Qed.

Lemma fold_add_template_available files (d : dict frame) f p k :
  (is_Some (dict_get d k) ∨ (f ∈ files ∧ content f = Some p ∧ label_of p = Some k)) →
  is_Some (dict_get (fold_left add_template files d) k).
Proof.
  revert d; induction files as [|g files IH]; intros d; simpl.
  - intros [Hd|[Hin _]]; [done | by apply elem_of_nil in Hin].
  - intros [Hd|(Hin & Hp & Hk)]; apply IH.
    + left. destruct (add_template_get_mono d g k) as [H|H]; [done|].
      rewrite H in Hd. by destruct Hd.
    + apply elem_of_cons in Hin as [<-|Hin]; [left | right; done].
      unfold add_template. rewrite Hp, Hk, dict_get_set_eq. by eexists.
Qed.

Lemma fold_stored_SIGN_LANDMARKS files wa wb :
  SIGN_LANDMARKS wa = SIGN_LANDMARKS wb →
  SIGN_LANDMARKS (fold_left (flip stored) files wa) =
  SIGN_LANDMARKS (fold_left (flip stored) files wb).
Proof.
  revert wa wb; induction files as [|g files IH]; intros wa wb Hab; simpl; [done|].
  apply IH. unfold flip, stored. destruct (content g) as [p|]; [|done].
  destruct (label_of p); simpl; by rewrite ?Hab.
Qed.

(** C5, as amended: a record that fails to parse, or that has neither an
    alias nor a sign, makes the load raise at that record: [load_templates]
    returns no template, and [load_landmark_templates] leaves in
    [SIGN_LANDMARKS] what the records scanned before it put there.  When
    every record parses and has an alias or a sign, both loads complete and
    the label of every record is available. *)
Theorem load_stops_at_malformed_record (w : world) :
  (∀ before f after,
     DATA_DIR w = before ++ f :: after →
     Forall (λ g, loadable g = true) before →
     loadable f = false →
     ∃ w1 w2,
       load_templates w = (Raise (load_error f), w1) ∧
       load_landmark_templates w = (Raise (load_error f), w2) ∧
       SIGN_LANDMARKS w2 = SIGN_LANDMARKS (fold_left (flip stored) before w))
  ∧
  (Forall (λ g, loadable g = true) (DATA_DIR w) →
   ∃ templates w1 w2,
     load_templates w = (Ok templates, w1) ∧
     load_landmark_templates w = (Ok tt, w2) ∧
     ∀ f p k, f ∈ DATA_DIR w → content f = Some p → label_of p = Some k →
       is_Some (dict_get templates k) ∧ is_Some (SIGN_LANDMARKS w2 !! k)).
Proof.
  split.
  - intros before f after Hdir Hall Hf. eexists _, _.
    split; [by eapply load_templates_raise|].
    split; [by eapply load_landmark_templates_raise|].
    simpl. by apply fold_stored_SIGN_LANDMARKS.
  - intros Hall. eexists _, _, _.
    split; [by apply load_templates_ok|].
    split; [by apply load_landmark_templates_ok|].
    intros f p k Hin Hp Hk. split.
    + eapply fold_add_template_available. by right.
    + by eapply fold_stored_available.
Qed.

Lemma load_stops_at_malformed_record_witness :
  ∃ w1 w2,
    load_templates (World [hello_file; broken_file; thanks_file] ∅ [] []) =
      (Raise JSONDecodeError, w1) ∧
    load_landmark_templates (World [hello_file; broken_file; thanks_file] ∅ [] []) =
      (Raise JSONDecodeError, w2) ∧
    SIGN_LANDMARKS w2 =
      SIGN_LANDMARKS
        (fold_left (flip stored) [hello_file]
           (World [hello_file; broken_file; thanks_file] ∅ [] [])).
Proof.
  apply (proj1 (load_stops_at_malformed_record
                  (World [hello_file; broken_file; thanks_file] ∅ [] []))
           [hello_file] broken_file [thanks_file]).
  - reflexivity.
  - repeat constructor.
  - reflexivity.
Defined.

(** C5, as stated, fails: with one unparsable file between two good ones,
    both loads raise, and the good record scanned after it is in neither
    result. *)
Lemma malformed_record_aborts_whole_load :
  let w := World [hello_file; broken_file; thanks_file] ∅ [] [] in
  loadable hello_file = true ∧ loadable thanks_file = true ∧
  (load_templates w).1 = Raise JSONDecodeError ∧
  (load_landmark_templates w).1 = Raise JSONDecodeError ∧
  SIGN_LANDMARKS (load_landmark_templates w).2 !! "thanks" = None ∧
  (get_sign_landmarks "thanks" (load_landmark_templates w).2).1 =
    Raise (HTTPException 404 "Sign landmarks not found.").
Proof. vm_compute. repeat split; reflexivity. Qed.

End StoreLoading.

(** ** Lookup by label *)

Section Lookup.
Import Main.

Lemma lower_byte_idemp c : lower_byte (lower_byte c) = lower_byte c.
Proof. by destruct c as [[] [] [] [] [] [] [] []]. Qed.

Lemma lower_upper_byte c : lower_byte (upper_byte c) = lower_byte c.
Proof. by destruct c as [[] [] [] [] [] [] [] []]. Qed.

Lemma str_lower_idemp s : str_lower (str_lower s) = str_lower s.
Proof. induction s as [|c s IH]; simpl; [done|]. by rewrite lower_byte_idemp, IH. Qed.

Lemma str_upper_cons_ascii c s :
  (N_of_ascii c <? 128)%N = true →
  str_upper (String c s) = String (upper_byte c) (str_upper s).
Proof.
  intros Hc. simpl. destruct s as [|d s]; [done|].
  replace (N_of_ascii c =? 195)%N with false; [done|].
  symmetry. apply N.eqb_neq. apply N.ltb_lt in Hc. lia.
Qed.

(** On ASCII labels upper-casing and then lower-casing is lower-casing. *)
Lemma str_lower_upper_ascii s :
  is_ascii s = true → str_lower (str_upper s) = str_lower s.
Proof.
  induction s as [|c s IH]; [done|].
  intros [Hc Hs]%andb_prop. rewrite str_upper_cons_ascii by done.
  simpl. by rewrite lower_upper_byte, IH.
Qed.

Lemma get_sign_landmarks_lower sign sign' w :
  str_lower sign' = str_lower sign →
  get_sign_landmarks sign' w = get_sign_landmarks sign w.
Proof. intros Heq. unfold get_sign_landmarks. by rewrite Heq. Qed.

(** The outcome of a lookup, given the world [w'] it ends in. *)
Lemma get_sign_landmarks_loaded sign w :
  size (SIGN_LANDMARKS w) ≠ 0%nat →
  get_sign_landmarks sign w =
    (match SIGN_LANDMARKS w !! str_lower sign with
     | Some p =>
         if payload_truthy p then Ok p
         else Raise (HTTPException 404 "Sign landmarks not found.")
     | None => Raise (HTTPException 404 "Sign landmarks not found.")
     end, w).
Proof.
  intros Hne. unfold get_sign_landmarks, mbind, M_bind, read_SIGN_LANDMARKS.
  rewrite (proj2 (Nat.eqb_neq _ _) Hne). simpl.
  destruct (SIGN_LANDMARKS w !! str_lower sign) as [p|]; [|done].
  by destruct (payload_truthy p).
Qed.

Lemma get_sign_landmarks_empty sign w :
  size (SIGN_LANDMARKS w) = 0%nat →
  get_sign_landmarks sign w =
    match load_landmark_templates w with
    | (Ok _, w') =>
        (match SIGN_LANDMARKS w' !! str_lower sign with
         | Some p =>
             if payload_truthy p then Ok p
             else Raise (HTTPException 404 "Sign landmarks not found.")
         | None => Raise (HTTPException 404 "Sign landmarks not found.")
         end, w')
    | (Raise e, w') => (Raise e, w')
    end.
Proof.
  intros He. unfold get_sign_landmarks, mbind, M_bind, read_SIGN_LANDMARKS.
  rewrite (proj2 (Nat.eqb_eq _ _) He).
  destruct (load_landmark_templates w) as [[[]|e] w']; [|done].
  destruct (SIGN_LANDMARKS w' !! str_lower sign) as [p|]; [|done].
  by destruct (payload_truthy p).
Qed.

(** C7, as amended: for every label whose upper-cased form lower-cases to the
    lower-cased label (every ASCII label does), the lookups of the label, of
    its lower-cased form and of its upper-cased form are one and the same
    computation, since the query is lower-cased before the mapping is
    consulted; and when the mapping is loaded, or every record of the
    directory is loadable, a lookup ends with the record stored under the
    lower-cased label or with the 404 exception, never with another one. *)
Theorem lookup_case_insensitive (sign : string) (w : world) :
  str_lower (str_upper sign) = str_lower sign →
  get_sign_landmarks (str_lower sign) w = get_sign_landmarks sign w ∧
  get_sign_landmarks (str_upper sign) w = get_sign_landmarks sign w ∧
  (size (SIGN_LANDMARKS w) ≠ 0%nat ∨ Forall (λ f, loadable f = true) (DATA_DIR w) →
   ∃ w', get_sign_landmarks sign w =
     (match SIGN_LANDMARKS w' !! str_lower sign with
      | Some p =>
          if payload_truthy p then Ok p
          else Raise (HTTPException 404 "Sign landmarks not found.")
      | None => Raise (HTTPException 404 "Sign landmarks not found.")
      end, w')).
Proof.
  intros Hup. split; [|split].
  - apply get_sign_landmarks_lower, str_lower_idemp.
  - by apply get_sign_landmarks_lower.
  - intros Hw. destruct (decide (size (SIGN_LANDMARKS w) = 0%nat)) as [He|Hne].
    + destruct Hw as [Hne|Hall]; [done|].
      rewrite get_sign_landmarks_empty, load_landmark_templates_ok by done.
      by eexists.
    + exists w. by apply get_sign_landmarks_loaded.
Qed.

Lemma lookup_case_insensitive_witness :
  get_sign_landmarks (str_lower "Hello") sample_world =
    get_sign_landmarks "Hello" sample_world ∧
  get_sign_landmarks (str_upper "Hello") sample_world =
    get_sign_landmarks "Hello" sample_world ∧
  (size (SIGN_LANDMARKS sample_world) ≠ 0%nat
   ∨ Forall (λ f, loadable f = true) (DATA_DIR sample_world) →
   ∃ w', get_sign_landmarks "Hello" sample_world =
     (match SIGN_LANDMARKS w' !! str_lower "Hello" with
      | Some p =>
          if payload_truthy p then Ok p
          else Raise (HTTPException 404 "Sign landmarks not found.")
      | None => Raise (HTTPException 404 "Sign landmarks not found.")
      end, w')).
Proof.
  apply (lookup_case_insensitive "Hello" sample_world). reflexivity.
Defined.

(** C7, as stated, fails on a label with the letter U+00DF: its upper-cased
    form is SS, which lower-cases to ss, so the record found under the label
    is not found under its upper-cased form. *)
Lemma lookup_uppercased_eszett_not_found :
  let w := World [eszett_file] ∅ [] [] in
  str_upper "ß" = "SS" ∧
  (∃ p, (get_sign_landmarks "ß" w).1 = Ok p) ∧
  (get_sign_landmarks (str_lower "ß") w).1 = (get_sign_landmarks "ß" w).1 ∧
  (get_sign_landmarks (str_upper "ß") w).1 =
    Raise (HTTPException 404 "Sign landmarks not found.").
Proof.
  vm_compute. repeat split; try reflexivity. eexists. reflexivity.
Qed.

End Lookup.

(** ** Accesses to the file system *)

Section FileSystemAccesses.
Import SignClassifier Main.

Lemma scans_opened f w : scans (opened f w) = scans w.
Proof. reflexivity. Qed.

Lemma scans_stored f w : scans (stored f w) = scans w.
Proof.
  unfold stored. destruct (content f) as [p|]; [|done]. by destruct (label_of p).
Qed.

Lemma scans_globbed w : scans (globbed w) = S (scans w).
Proof. reflexivity. Qed.

Lemma for_in_M_scans {A S} (body : S -> A -> M S) (l : list A) :
  (∀ s a w, scans (body s a w).2 = scans w) →
  ∀ s w, scans (for_in_M l body s w).2 = scans w.
Proof.
  intros Hbody. induction l as [|a l IH]; intros s w; simpl; [done|].
  unfold mbind, M_bind. specialize (Hbody s a w).
  destruct (body s a w) as [[s1|e] w1]; simpl in *; [|done].
  by rewrite IH.
Qed.

Lemma load_template_scans d f w : scans (load_template d f w).2 = scans w.
Proof.
  destruct (loadable f) eqn:Hf.
  - by rewrite load_template_ok.
  - by rewrite load_template_raise.
Qed.

Lemma load_landmark_template_scans u f w :
  scans (load_landmark_template u f w).2 = scans w.
Proof.
  destruct (loadable f) eqn:Hf.
  - rewrite load_landmark_template_ok by done. apply scans_stored.
  - by rewrite load_landmark_template_raise.
Qed.

Lemma load_templates_scans w : scans (load_templates w).2 = S (scans w).
Proof.
  unfold load_templates, mbind, M_bind. rewrite glob_eq. cbv beta iota.
  rewrite for_in_M_scans; [done | apply load_template_scans].
Qed.

Lemma load_landmark_templates_scans w :
  scans (load_landmark_templates w).2 = S (scans w).
Proof.
  unfold load_landmark_templates, mbind, M_bind. rewrite glob_eq. cbv beta iota.
  rewrite for_in_M_scans; [done | apply load_landmark_template_scans].
Qed.

Lemma classify_world landmarks w : (classify landmarks w).2 = (load_templates w).2.
Proof.
  unfold classify, mbind at 1, M_bind.
  destruct (load_templates w) as [[templates|e] w1]; [|done].
  destruct templates as [|it templates]; [done|].
  destruct landmarks as [|p landmarks]; [done|].
  unfold mbind, M_bind, lift. by destruct (for_in _ _ _).
Qed.

Lemma get_sign_landmarks_world_loaded sign w :
  size (SIGN_LANDMARKS w) ≠ 0%nat → (get_sign_landmarks sign w).2 = w.
Proof. intros Hne. by rewrite get_sign_landmarks_loaded. Qed.

Lemma get_sign_landmarks_world_empty sign w :
  size (SIGN_LANDMARKS w) = 0%nat →
  (get_sign_landmarks sign w).2 = (load_landmark_templates w).2.
Proof.
  intros He. rewrite get_sign_landmarks_empty by done.
  by destruct (load_landmark_templates w) as [[[]|e] w'].
Qed.

(** C8, as amended: a lookup loads the templates exactly when the in-memory
    mapping is empty at that request, and this load scans the directory
    once; once the mapping holds a record, no lookup, and no sequence of
    lookups, reads the file system or changes anything.  [classify]
    calls [load_templates] at every call, which scans the directory once
    each time. *)
Theorem templates_loaded_while_mapping_empty :
  (∀ sign w, size (SIGN_LANDMARKS w) ≠ 0%nat → (get_sign_landmarks sign w).2 = w)
  ∧
  (∀ signs w, size (SIGN_LANDMARKS w) ≠ 0%nat → lookups signs w = w)
  ∧
  (∀ sign w, size (SIGN_LANDMARKS w) = 0%nat →
     (get_sign_landmarks sign w).2 = (load_landmark_templates w).2 ∧
     scans (get_sign_landmarks sign w).2 = S (scans w))
  ∧
  (∀ landmarks w,
     (classify landmarks w).2 = (load_templates w).2 ∧
     scans (classify landmarks w).2 = S (scans w)).
Proof.
  split; [|split; [|split]].
  - apply get_sign_landmarks_world_loaded.
  - intros signs w Hne. unfold lookups.
    induction signs as [|sign signs IH]; simpl; [done|].
    by rewrite get_sign_landmarks_world_loaded.
  - intros sign w He. rewrite get_sign_landmarks_world_empty by done.
    split; [done | apply load_landmark_templates_scans].
  - intros landmarks w. rewrite classify_world.
    split; [done | apply load_templates_scans].
Qed.

Lemma templates_loaded_while_mapping_empty_witness :
  lookups ["hello"; "Wave"; "nothing"] (get_sign_landmarks "hello" sample_world).2 =
  (get_sign_landmarks "hello" sample_world).2.
Proof.
  apply (proj1 (proj2 templates_loaded_while_mapping_empty)).
  vm_compute. discriminate.
Defined.

(** C8, as stated, fails: after a lookup has loaded three records with one
    scan, a call of [classify] scans the directory again; and over a
    directory without any record, two lookups scan it twice. *)
Lemma file_system_read_again_after_load :
  let w1 := (get_sign_landmarks "hello" sample_world).2 in
  size (SIGN_LANDMARKS w1) = 3%nat ∧ scans w1 = 1%nat ∧
  scans (classify [sample_point 0 0 1 0] w1).2 = 2%nat ∧
  scans (lookups ["hello"; "hello"] (World [] ∅ [] [])) = 2%nat.
Proof. vm_compute. repeat split; reflexivity. Qed.

End FileSystemAccesses.

(** ** Dataset export *)

Section DatasetExport.
Import SignClassifier.

Lemma fold_left_snoc {A B} (g : A -> B) (l : list A) (acc : list B) :
  fold_left (λ rows a, rows ++ [g a]) l acc = acc ++ (g <$> l).
Proof.
  revert acc; induction l as [|a l IH]; intros acc; simpl.
  - by rewrite app_nil_r.
  - rewrite IH. by rewrite <- app_assoc.
Qed.

Lemma export_file_ok limit rows f w :
  is_Some (content f) →
  export_file limit rows f w = (Ok (rows ++ file_rows limit f), opened f w).
Proof.
  intros [p Hp]. unfold export_file, file_rows, file_label, file_frames, limited,
    json_load, log, lift, mbind, M_bind, opened. simpl. rewrite Hp. simpl.
  by rewrite fold_left_snoc.
Qed.

Lemma export_dataset_ok out limit w :
  Forall (λ f, is_Some (content f)) (DATA_DIR w) →
  export_dataset out limit w =
    (Ok tt,
     World (DATA_DIR w) (SIGN_LANDMARKS w)
       (Write out :: fs_log (fold_left (flip opened) (DATA_DIR w) (globbed w)))
       ((out, concat (file_rows limit <$> DATA_DIR w)) :: written w)).
Proof.
  intros Hall. unfold export_dataset, mbind at 1, M_bind. rewrite glob_eq.
  cbv beta iota. unfold mbind, M_bind.
  rewrite (for_in_M_ok (export_file limit) (λ rows f, rows ++ file_rows limit f)
             opened).
  2:{ intros f rows w' Hf. apply export_file_ok.
      by apply (proj1 (Forall_forall _ _) Hall). }
  unfold json_dump. f_equal.
  assert (∀ files (acc : list row),
            fold_left (λ rows f, rows ++ file_rows limit f) files acc =
            acc ++ concat (file_rows limit <$> files)) as Hrows.
  { induction files as [|f files IH]; intros acc; simpl.
    - by rewrite app_nil_r.
    - rewrite IH. by rewrite <- app_assoc. }
  rewrite Hrows. simpl.
  assert (∀ files w0, DATA_DIR (fold_left (flip opened) files w0) = DATA_DIR w0
            ∧ SIGN_LANDMARKS (fold_left (flip opened) files w0) = SIGN_LANDMARKS w0
            ∧ written (fold_left (flip opened) files w0) = written w0) as Hkeep.
  { induction files as [|f files IH]; intros w0; simpl; [done|].
    destruct (IH (opened f w0)) as (H1 & H2 & H3).
    change (flip opened w0 f) with (opened f w0). by rewrite H1, H2, H3. }
  destruct (Hkeep (DATA_DIR w) (globbed w)) as (-> & -> & ->). done.
Qed.

Lemma column_inj (c1 c2 : ascii) (i j : Z) :
  String c1 ("_" +:+ pretty i) = String c2 ("_" +:+ pretty j) → c1 = c2 ∧ i = j.
Proof. intros [= -> Hp]. split; [done|]. by apply (inj pretty). Qed.

Lemma add_point_label r p : dict_get (add_point r p) "label" = dict_get r "label".
Proof. unfold add_point. by rewrite !dict_get_set_ne. Qed.

Lemma add_point_columns r p :
  dict_get (add_point r p) ("x_" +:+ pretty (pt_id p)) = Some (CNum (pt_x p)) ∧
  dict_get (add_point r p) ("y_" +:+ pretty (pt_id p)) = Some (CNum (pt_y p)) ∧
  dict_get (add_point r p) ("z_" +:+ pretty (pt_id p)) = Some (CNum (get_z_default p)).
Proof.
  unfold add_point. repeat split.
  - rewrite !dict_get_set_ne by done. apply dict_get_set_eq.
  - rewrite dict_get_set_ne by done. apply dict_get_set_eq.
  - apply dict_get_set_eq.
Qed.

Lemma add_point_other r p (c : ascii) (i : Z) :
  i ≠ pt_id p →
  dict_get (add_point r p) (String c ("_" +:+ pretty i)) =
  dict_get r (String c ("_" +:+ pretty i)).
Proof.
  intros Hne. unfold add_point.
  rewrite !dict_get_set_ne; [done|..]; intros Heq;
    apply column_inj in Heq as [_ Heq]; congruence.
Qed.

Lemma make_row_label label fr :
  dict_get (make_row label fr) "label" = Some (CLabel label).
Proof.
  unfold make_row. generalize (eq_refl (dict_get [("label", CLabel label)] "label")).
  generalize [("label", CLabel label)] at 2 3. intros r Hr.
  revert r Hr; induction fr as [|p fr IH]; intros r Hr; simpl; [done|].
  apply IH. by rewrite add_point_label.
Qed.

Lemma make_row_carries label fr : carries (make_row label fr) label fr.
Proof.
  split; [apply make_row_label|]. unfold make_row.
  generalize [("label", CLabel label)]. intros r0.
  induction fr as [|p0 fr IH] using rev_ind; intros p Hp.
  { by apply elem_of_nil in Hp. }
  rewrite fold_left_app. simpl.
  destruct (decide (pt_id p = pt_id p0)) as [Heq|Hne].
  - exists p0. split; [apply elem_of_app; right; by left|]. split; [done|].
    rewrite Heq. apply add_point_columns.
  - apply elem_of_app in Hp as [Hp|Hp];
      [|apply list_elem_of_singleton in Hp; congruence].
    destruct (IH p Hp) as (q & Hq & Hid & Hx & Hy & Hz).
    exists q. split; [apply elem_of_app; by left|]. split; [done|].
    change ("x_" +:+ pretty (pt_id p)) with (String "x" ("_" +:+ pretty (pt_id p))).
    change ("y_" +:+ pretty (pt_id p)) with (String "y" ("_" +:+ pretty (pt_id p))).
    change ("z_" +:+ pretty (pt_id p)) with (String "z" ("_" +:+ pretty (pt_id p))).
    by rewrite !add_point_other.
Qed.

Lemma has_label_make_row label label' fr :
  has_label label' (make_row label fr) = bool_decide (label = label').
Proof. unfold has_label. by rewrite make_row_label. Qed.

Lemma filter_file_rows limit label f :
  filter (λ r, has_label label r = true) (file_rows limit f) =
  if decide (file_label f = label) then file_rows limit f else [].
Proof.
  unfold file_rows. induction (limited limit (file_frames f)) as [|fr l IH].
  - by destruct (decide _).
  - rewrite fmap_cons, filter_cons, IH, has_label_make_row.
    destruct (decide (file_label f = label)) as [Heq|Hne].
    + by rewrite decide_True by (by apply bool_decide_eq_true).
    + by rewrite decide_False by (by rewrite bool_decide_eq_true).
Qed.

Lemma filter_rows_of_label limit (files : list file) f :
  NoDup (file_label <$> files) → f ∈ files →
  filter (λ r, has_label (file_label f) r = true)
         (concat (file_rows limit <$> files)) = file_rows limit f.
Proof.
  induction files as [|g files IH]; intros Hnd Hin.
  { by apply elem_of_nil in Hin. }
  rewrite fmap_cons in Hnd. apply NoDup_cons in Hnd as [Hg Hnd].
  rewrite fmap_cons. simpl. rewrite filter_app, filter_file_rows.
  destruct (decide (file_label g = file_label f)) as [Heq|Hne].
  - assert (g = f) as ->.
    { apply elem_of_cons in Hin as [->|Hin]; [done|]. destruct Hg.
      rewrite Heq. by apply list_elem_of_fmap_2. }
    assert (filter (λ r, has_label (file_label f) r = true)
              (concat (file_rows limit <$> files)) = []) as ->;
      [|by rewrite app_nil_r].
    clear IH Hin Hnd. induction files as [|h files IH]; [done|].
    rewrite fmap_cons in Hg. apply not_elem_of_cons in Hg as [Hh Hg].
    rewrite fmap_cons. simpl. rewrite filter_app, filter_file_rows.
    rewrite decide_False by done. by apply IH.
  - apply elem_of_cons in Hin as [->|Hin]; [done|]. simpl. by apply IH.
Qed.

Lemma limited_positive (K : Z) (l : list frame) :
  1 ≤ K → limited (Some K) l = take (Z.to_nat K) l.
Proof.
  intros HK. unfold limited, truthy, slice_to. simpl.
  replace (K =? 0) with false by (symmetry; apply Z.eqb_neq; lia).
  replace (K <? 0) with false by (symmetry; apply Z.ltb_ge; lia). done.
Qed.

(** C9, as amended: with a limit [K ≥ 1], over a store whose records have
    pairwise different labels and at least [K] retained raw frames each,
    [export_dataset] writes exactly [K] rows per sign: the rows with the
    label of a record are [K], the i-th of them carrying that label and the
    x, y and z columns of every point of the record's i-th raw frame. *)
Theorem export_rows_per_sign (out : string) (K : Z) (w : world) :
  1 ≤ K →
  Forall (λ f, is_Some (content f) ∧ (Z.to_nat K ≤ length (file_frames f))%nat)
         (DATA_DIR w) →
  NoDup (file_label <$> DATA_DIR w) →
  ∃ rows w',
    export_dataset out (Some K) w = (Ok tt, w') ∧
    written w' = (out, rows) :: written w ∧
    ∀ f, f ∈ DATA_DIR w →
      ∃ rows_f,
        filter (λ r, has_label (file_label f) r = true) rows = rows_f ∧
        length rows_f = Z.to_nat K ∧
        ∀ i r, rows_f !! i = Some r →
          ∃ fr, file_frames f !! i = Some fr ∧ carries r (file_label f) fr.
Proof.
  intros HK Hall Hnd. eexists _, _.
  split; [apply export_dataset_ok; eapply Forall_impl; [exact Hall|]; by intros f []|].
  split; [done|]. intros f Hf. eexists. split; [by apply filter_rows_of_label|].
  pose proof (proj1 (Forall_forall _ _) Hall f Hf) as [_ Hlen].
  unfold file_rows. rewrite limited_positive by done. split.
  - rewrite length_fmap, length_take. lia.
  - intros i r Hr. apply list_lookup_fmap_Some in Hr as (fr & -> & Hfr).
    apply lookup_take_Some in Hfr as [Hfr _].
    exists fr. split; [done | apply make_row_carries].
Qed.

Lemma export_rows_per_sign_witness :
  ∃ rows w',
    export_dataset "sign_dataset.json" (Some 2) (World [hello_file; thanks_file] ∅ [] []) =
      (Ok tt, w') ∧
    written w' = [("sign_dataset.json", rows)] ∧
    ∀ f, f ∈ [hello_file; thanks_file] →
      ∃ rows_f,
        filter (λ r, has_label (file_label f) r = true) rows = rows_f ∧
        length rows_f = 2%nat ∧
        ∀ i r, rows_f !! i = Some r →
          ∃ fr, file_frames f !! i = Some fr ∧ carries r (file_label f) fr.
Proof.
  apply (export_rows_per_sign "sign_dataset.json" 2
           (World [hello_file; thanks_file] ∅ [] [])).
  - lia.
  - repeat constructor; simpl; eauto; lia.
  - apply (bool_decide_unpack _). vm_compute. exact I.
Defined.

(** C9, as stated, fails at the limit [K = 0]: the record has three raw
    frames, and three rows are written for its sign, not none. *)
Lemma export_limit_zero_row_count :
  let w := World [thanks_file] ∅ [] [] in
  (0 ≤ length (file_frames thanks_file))%nat ∧
  ∃ rows w',
    export_dataset "sign_dataset.json" (Some 0) w = (Ok tt, w') ∧
    written w' = [("sign_dataset.json", rows)] ∧
    length (filter (λ r, has_label (file_label thanks_file) r = true) rows) = 3%nat.
Proof.
  split; [simpl; lia|]. eexists _, _. split; [vm_compute; reflexivity|].
  split; [reflexivity|]. vm_compute. reflexivity.
Qed.

(** C10: with [limit_frames = 0] the export is the export without a limit;
    over records that parse, it writes one row for every retained raw frame
    of every record. *)
Theorem export_zero_limit_is_no_limit (out : string) (w : world) :
  export_dataset out (Some 0) w = export_dataset out None w ∧
  (Forall (λ f, is_Some (content f)) (DATA_DIR w) →
   ∃ w',
     export_dataset out (Some 0) w = (Ok tt, w') ∧
     written w' =
       (out, concat ((λ f, make_row (file_label f) <$> file_frames f) <$> DATA_DIR w))
       :: written w).
Proof.
  split; [reflexivity|]. intros Hall. eexists.
  split; [by apply export_dataset_ok|]. done.
Qed.

Lemma export_zero_limit_is_no_limit_witness :
  ∃ w',
    export_dataset "sign_dataset.json" (Some 0) sample_world = (Ok tt, w') ∧
    written w' =
      ("sign_dataset.json",
       concat ((λ f, make_row (file_label f) <$> file_frames f) <$> DATA_DIR sample_world))
      :: written sample_world.
Proof.
  apply (proj2 (export_zero_limit_is_no_limit "sign_dataset.json" sample_world)).
  repeat constructor; simpl; eauto.
Defined.

End DatasetExport.

(** * Further properties of the code *)

(** ** Averaging: accepted ids, failures and the shape of the result *)

Section AveragingEdges.
Import ProcessLandmarks.

Lemma accumulate_accepted accum p :
  accepted (length accum) p →
  ∃ row, accum !! row_index (length accum) (pt_id p) = Some row ∧
    accumulate accum p =
      Ok (<[row_index (length accum) (pt_id p) := vadd row (row_of p)]> accum).
Proof.
  intros [[Hlo Hhi] [z Hz]]. set (n := length accum) in *.
  assert (row_index n (pt_id p) < n)%nat as Hlt.
  { unfold row_index. pose proof (Z.mod_pos_bound (pt_id p) (Z.of_nat n)). lia. }
  destruct (lookup_lt_is_Some_2 accum _ Hlt) as [row Hrow].
  exists row. split; [done|]. unfold accumulate, np_row. fold n.
  assert (get_z p = Ok z) as Hgz by (unfold get_z; by rewrite Hz).
  assert (row_of p = (pt_x p, pt_y p, z)) as Hro
    by (unfold row_of, get_z_default; by rewrite Hz).
  destruct (decide (0 ≤ pt_id p)) as [Hnn|Hneg].
  - replace (0 <=? pt_id p) with true by (symmetry; apply Z.leb_le; lia).
    replace (pt_id p <? Z.of_nat n) with true by (symmetry; apply Z.ltb_lt; lia).
    simpl. rewrite Hgz. simpl.
    replace (Z.to_nat (pt_id p)) with (row_index n (pt_id p))
      by (unfold row_index; rewrite Z.mod_small; lia).
    by rewrite Hrow, Hro.
  - replace (0 <=? pt_id p) with false by (symmetry; apply Z.leb_gt; lia).
    replace (- Z.of_nat n <=? pt_id p) with true by (symmetry; apply Z.leb_le; lia).
    replace (pt_id p <? 0) with true by (symmetry; apply Z.ltb_lt; lia).
    simpl. rewrite Hgz. simpl.
    replace (Z.to_nat (pt_id p + Z.of_nat n)) with (row_index n (pt_id p)).
    + by rewrite Hrow, Hro.
    + unfold row_index. f_equal.
      rewrite <- (Z.mod_small (pt_id p + Z.of_nat n) (Z.of_nat n)) by lia.
      rewrite <- (Z_mod_plus_full (pt_id p) 1 (Z.of_nat n)). f_equal. lia.
Qed.

Lemma accumulate_rejected accum p :
  ¬ accepted (length accum) p →
  accumulate accum p = Raise IndexError ∨ accumulate accum p = Raise (KeyError "z").
Proof.
  intros Hnot. unfold accumulate, np_row.
  destruct ((0 <=? pt_id p) && (pt_id p <? Z.of_nat (length accum))) eqn:H1;
    [|destruct ((- Z.of_nat (length accum) <=? pt_id p) && (pt_id p <? 0)) eqn:H2];
    simpl; [| |by left].
  - apply andb_prop in H1 as [?%Z.leb_le ?%Z.ltb_lt].
    unfold get_z. destruct (pt_z p) as [z|] eqn:Hz; [|by right].
    destruct Hnot. split; [lia | by eexists].
  - apply andb_prop in H2 as [?%Z.leb_le ?%Z.ltb_lt].
    unfold get_z. destruct (pt_z p) as [z|] eqn:Hz; [|by right].
    destruct Hnot. split; [lia | by eexists].
Qed.

Lemma for_in_accumulate_accepted ps accum :
  Forall (accepted (length accum)) ps →
  for_in ps accumulate accum = Ok (imap (row_accumulated (length accum) ps) accum).
Proof.
  revert accum; induction ps as [|p ps IH]; intros accum Hps.
  - simpl. f_equal. symmetry. apply list_eq; intros i.
    rewrite list_lookup_imap. by destruct (accum !! i).
  - inversion Hps as [|? ? Hp Hps']; subst.
    destruct (accumulate_accepted accum p Hp) as (row & Hrow & Hacc).
    simpl. rewrite Hacc. simpl. rewrite IH by (by rewrite length_insert).
    rewrite length_insert.
    f_equal. apply list_eq; intros i. rewrite !list_lookup_imap.
    unfold row_accumulated. rewrite filter_cons.
    destruct (decide (row_index (length accum) (pt_id p) = i)) as [<-|Hne].
    + rewrite list_lookup_insert_eq by (by eapply lookup_lt_Some).
      by rewrite Hrow.
    + by rewrite list_lookup_insert_ne.
Qed.

Lemma accepted_or_not n p : accepted n p ∨ ¬ accepted n p.
Proof.
  unfold accepted. destruct (pt_z p) as [z|].
  - destruct (decide (- Z.of_nat n ≤ pt_id p < Z.of_nat n)) as [H|H].
    + left. split; [done | by eexists].
    + right. by intros [? _].
  - right. intros [_ [z Hz]]. done.
Qed.

Lemma Forall_accepted_or_not n (fs : list frame) :
  Forall (Forall (accepted n)) fs ∨ ¬ Forall (Forall (accepted n)) fs.
Proof.
  induction fs as [|f fs IH]; [left; constructor|].
  assert (Forall (accepted n) f ∨ ¬ Forall (accepted n) f) as [Hf|Hf].
  { induction f as [|q f IHf]; [left; constructor|].
    destruct (accepted_or_not n q) as [Hq|Hq], IHf as [Hf|Hf];
      [left; by constructor | right | right | right];
      intros H; inversion H; done. }
  - destruct IH as [H|H]; [left; by constructor|].
    right. intros H'. inversion H'. done.
  - right. intros H'. inversion H'. done.
Qed.

Lemma for_in_accumulate_rejected ps accum :
  ¬ Forall (accepted (length accum)) ps →
  for_in ps accumulate accum = Raise IndexError
  ∨ for_in ps accumulate accum = Raise (KeyError "z").
Proof.
  revert accum; induction ps as [|p ps IH]; intros accum Hnot.
  - destruct Hnot. constructor.
  - simpl. destruct (accepted_or_not (length accum) p) as [Hp|Hp].
    + destruct (accumulate_accepted accum p Hp) as (row & Hrow & Hacc).
      rewrite Hacc. simpl. apply IH. rewrite length_insert.
      intros Hps. apply Hnot. by constructor.
    + destruct (accumulate_rejected accum p Hp) as [-> | ->]; [by left | by right].
Qed.

Lemma row_accumulated_zero n ps i :
  row_accumulated n ps i vzero =
  (fold_left PrimFloat.add (pt_x <$> filter (λ p, row_index n (pt_id p) = i) ps) 0%float,
   fold_left PrimFloat.add (pt_y <$> filter (λ p, row_index n (pt_id p) = i) ps) 0%float,
   fold_left PrimFloat.add
     (get_z_default <$> filter (λ p, row_index n (pt_id p) = i) ps) 0%float).
Proof. apply fold_vadd. Qed.

Lemma average_landmarks_accepted frame0 rest :
  Forall (Forall (accepted (length frame0))) (frame0 :: rest) →
  average_landmarks (frame0 :: rest) =
    Ok ((λ i : nat,
           Point (Z.of_nat i)
             (row_mean pt_x (length frame0) i (frame0 :: rest))
             (row_mean pt_y (length frame0) i (frame0 :: rest))
             (Some (row_mean get_z_default (length frame0) i (frame0 :: rest))))
          <$> seq 0 (length frame0)).
Proof.
  intros Hin. unfold average_landmarks.
  rewrite (for_in_concat (A:=point) accumulate), for_in_accumulate_accepted;
    last first.
  { unfold np_zeros. rewrite length_replicate. apply Forall_concat, Hin. }
  change (Ok ?a ≫= ?k) with (k a).
  apply comprehension_ok. intros i Hi.
  apply elem_of_seq in Hi as [_ Hi]. simpl in Hi.
  unfold np_zeros at 1. rewrite length_replicate.
  rewrite (py_index_nat _ i
             (row_accumulated (length frame0) (concat (frame0 :: rest)) i vzero));
    last first.
  { rewrite list_lookup_imap, np_zeros_lookup by done. done. }
  change (Ok ?a ≫= ?k) with (k a).
  rewrite row_accumulated_zero. done.
Qed.

Lemma average_landmarks_rejected frame0 rest :
  ¬ Forall (Forall (accepted (length frame0))) (frame0 :: rest) →
  average_landmarks (frame0 :: rest) = Raise IndexError
  ∨ average_landmarks (frame0 :: rest) = Raise (KeyError "z").
Proof.
  intros Hnot. unfold average_landmarks.
  rewrite (for_in_concat (A:=point) accumulate).
  destruct (for_in_accumulate_rejected (concat (frame0 :: rest))
              (np_zeros (length frame0))) as [-> | ->]; [|by left|by right].
  unfold np_zeros. rewrite length_replicate. intros Hall. apply Hnot.
  apply Forall_forall. intros f Hf. apply Forall_forall. intros q Hq.
  apply (proj1 (Forall_forall _ _) Hall).
  apply list_elem_of_In, in_concat. exists f. split; by apply list_elem_of_In.
Qed.

(** X1: The ids that numpy takes as row indices from the end are averaged into
    those rows: over frames whose ids all lie in [-n, n), [n] the length of
    the first frame, row [i] of the result is the mean of the points whose
    id is [i] or [i - n]. *)
Theorem average_landmarks_negative_ids (frames : list frame) :
  frames ≠ [] →
  Forall (Forall (accepted (length (hd [] frames)))) frames →
  average_landmarks frames =
    Ok ((λ i : nat,
           Point (Z.of_nat i)
             (row_mean pt_x (length (hd [] frames)) i frames)
             (row_mean pt_y (length (hd [] frames)) i frames)
             (Some (row_mean get_z_default (length (hd [] frames)) i frames)))
          <$> seq 0 (length (hd [] frames))).
Proof.
  destruct frames as [|frame0 rest]; [done|]. intros _.
  apply average_landmarks_accepted.
Qed.

Lemma average_landmarks_negative_ids_witness :
  average_landmarks
    [ [Point 0 1 2 (Some 3%float); Point 1 4 5 (Some 6%float)];
      [Point (-1) 0 1 (Some 0%float); Point (-2) 3 2 (Some 1%float)] ] =
  Ok [ Point 0 2 2 (Some 2%float); Point 1 2 3 (Some 3%float) ].
Proof.
  rewrite average_landmarks_negative_ids.
  - vm_compute. reflexivity.
  - discriminate.
  - repeat constructor; simpl; lia || eauto.
Defined.



(** X3: The frame that [average_landmarks] returns has as many points as the
    first frame given, numbered 0, 1, 2, ... in order, each with a ["z"]. *)
Theorem average_landmarks_shape (frames : list frame) (avg : frame) :
  average_landmarks frames = Ok avg →
  length avg = length (hd [] frames) ∧
  ∀ (i : nat) p, avg !! i = Some p → pt_id p = Z.of_nat i ∧ is_Some (pt_z p).
Proof.
  destruct frames as [|frame0 rest].
  { intros [= <-]. split; [done|]. intros i p Hp. by destruct i. }
  intros Havg. simpl hd.
  destruct (Forall_accepted_or_not (length frame0) (frame0 :: rest)) as [H|H].
  - rewrite average_landmarks_accepted in Havg by done. injection Havg as <-.
    split; [by rewrite length_fmap, length_seq|].
    intros i p Hp. apply list_lookup_fmap_Some in Hp as (j & -> & Hj).
    apply lookup_seq in Hj as [-> _]. simpl. split; [done | by eexists].
  - destruct (average_landmarks_rejected _ _ H) as [Hr|Hr];
      discriminate (eq_trans (eq_sym Havg) Hr).
Qed.

Lemma average_landmarks_shape_witness :
  length [ Point 0 2 2 (Some 2%float); Point 1 2 3 (Some 3%float) ] =
    length (hd [] [ [Point 0 1 2 (Some 3%float); Point 1 4 5 (Some 6%float)];
                    [Point 1 0 1 (Some 0%float); Point 0 3 2 (Some 1%float)] ]) ∧
  ∀ (i : nat) p,
    [ Point 0 2 2 (Some 2%float); Point 1 2 3 (Some 3%float) ] !! i = Some p →
    pt_id p = Z.of_nat i ∧ is_Some (pt_z p).
Proof.
  apply (average_landmarks_shape
           [ [Point 0 1 2 (Some 3%float); Point 1 4 5 (Some 6%float)];
             [Point 1 0 1 (Some 0%float); Point 0 3 2 (Some 1%float)] ]).
  vm_compute. reflexivity.
Defined.

End AveragingEdges.

(** ** Distances and scores are never negative *)

Section Signs.
Import SignClassifier.
#[local] Arguments classify_step : simpl never.
#[local] Arguments score : simpl never.

Lemma binary_round_aux_unsigned mx ex lx :
  unsigned_sf (binary_round_aux prec emax false mx ex lx).
Proof.
  unfold binary_round_aux.
  destruct (shr_fexp prec emax mx ex lx) as [mrs' e'].
  destruct (shr_fexp prec emax _ e' loc_Exact) as [mrs'' e''].
  destruct (shr_m mrs''); [done| |done].
  by destruct (Z.leb e'' (Z.sub emax prec)).
Qed.

Lemma binary_round_unsigned mx ex : unsigned_sf (binary_round prec emax false mx ex).
Proof.
  unfold binary_round. destruct (shl_align mx ex _) as [mz ez].
  apply binary_round_aux_unsigned.
Qed.

Lemma binary_normalize_unsigned m e :
  0 ≤ m → unsigned_sf (binary_normalize prec emax m e false).
Proof.
  intros Hm. destruct m as [|m|m]; simpl; [done| |lia].
  apply binary_round_unsigned.
Qed.

Lemma SFmul_square_unsigned x : unsigned_sf (SFmul prec emax x x).
Proof.
  destruct x as [s|s| |s m e]; simpl; try done; try by destruct s.
  replace (xorb s s) with false by (by destruct s).
  apply binary_round_aux_unsigned.
Qed.

Lemma SFadd_unsigned x y :
  unsigned_sf x → unsigned_sf y → unsigned_sf (SFadd prec emax x y).
Proof.
  destruct x as [sx|sx| |sx mx ex], y as [sy|sy| |sy my ey]; simpl;
    intros Hx Hy; subst; try done.
  apply binary_normalize_unsigned. simpl. lia.
Qed.

Lemma SFsqrt_unsigned x : unsigned_sf x → unsigned_sf (SFsqrt prec emax x).
Proof.
  destruct x as [s|s| |s m e]; simpl; intros Hx; subst; try done.
  destruct (SFsqrt_core_binary prec emax (Z.pos m) e) as [[mz ez] lz].
  apply binary_round_aux_unsigned.
Qed.

Lemma SFdiv_unsigned x y :
  unsigned_sf x → unsigned_sf y → unsigned_sf (SFdiv prec emax x y).
Proof.
  destruct x as [sx|sx| |sx mx ex], y as [sy|sy| |sy my ey]; simpl;
    intros Hx Hy; subst; try done.
  destruct (SFdiv_core_binary prec emax (Z.pos mx) ex (Z.pos my) ey)
    as [[mz ez] lz].
  apply binary_round_aux_unsigned.
Qed.

Lemma unsigned_zero : unsigned 0.
Proof. reflexivity. Qed.

Lemma unsigned_square d : unsigned (d * d).
Proof. unfold unsigned. rewrite FloatAxioms.mul_spec. apply SFmul_square_unsigned. Qed.

Lemma unsigned_add a b : unsigned a → unsigned b → unsigned (a + b).
Proof. unfold unsigned. rewrite FloatAxioms.add_spec. apply SFadd_unsigned. Qed.

Lemma unsigned_sqrt v : unsigned v → unsigned (PrimFloat.sqrt v).
Proof. unfold unsigned. rewrite FloatAxioms.sqrt_spec. apply SFsqrt_unsigned. Qed.

Lemma unsigned_div a b : unsigned a → unsigned b → unsigned (a / b).
Proof. unfold unsigned. rewrite FloatAxioms.div_spec. apply SFdiv_unsigned. Qed.

Lemma unsigned_float_of_len n : unsigned (float_of_len n).
Proof.
  unfold unsigned, float_of_len. rewrite FloatAxioms.of_uint63_spec.
  apply binary_normalize_unsigned. apply Uint63.to_Z_bounded.
Qed.

Lemma unsigned_not_negative v : unsigned v → (v <? 0)%float = false.
Proof.
  intros Hv. apply not_true_iff_false. rewrite ltb_key.
  unfold unsigned in Hv. unfold key_rel.
  change (Prim2SF 0) with (S754_zero false).
  destruct (Prim2SF v) as [s|s| |s m e]; simpl in *; subst; simpl;
    unfold key_lt; simpl; lia.
Qed.

Lemma unsigned_py_sum ds : Forall unsigned ds → unsigned (py_sum ds).
Proof.
  unfold py_sum. generalize unsigned_zero. generalize 0%float.
  induction ds as [|d ds IH]; intros a Ha Hds; simpl; [done|].
  inversion Hds; subst. apply IH; [by apply unsigned_add | done].
Qed.

Lemma pow2_cases d : pow2 d = Ok (d * d)%float ∨ pow2 d = Raise OverflowError.
Proof. unfold pow2. destruct (_ && _); [by right | by left]. Qed.

Lemma comprehension_cases {A B} (P : B -> Prop) (e0 : exception)
    (f : A -> result B) (l : list A) :
  (∀ a, a ∈ l → (∃ b, f a = Ok b ∧ P b) ∨ f a = Raise e0) →
  (∃ bs, comprehension f l = Ok bs ∧ Forall P bs) ∨ comprehension f l = Raise e0.
Proof.
  induction l as [|a l IH]; intros Hf; simpl.
  - left. exists []. by split.
  - destruct (Hf a) as [(b & -> & Hb)| ->]; [by left| |by right]. simpl.
    destruct IH as [(bs & -> & Hbs)| ->]; [intros; apply Hf; by right| |by right].
    left. exists (b :: bs). split; [done | by constructor].
Qed.



(** X4: A distance is never negative, and [math.sqrt] never raises in it:
    [euclidean_distance] returns a float that is not below zero, or raises
    [OverflowError]. *)
Theorem euclidean_distance_not_negative (p1 p2 : point) :
  (∃ d, euclidean_distance p1 p2 = Ok d ∧ (d <? 0)%float = false)
  ∨ euclidean_distance p1 p2 = Raise OverflowError.
Proof.
  unfold euclidean_distance.
  destruct (pow2_cases (pt_x p1 - pt_x p2)) as [-> | ->]; [|by right].
  destruct (pow2_cases (pt_y p1 - pt_y p2)) as [-> | ->]; [|by right].
  destruct (pow2_cases (get_z_default p1 - get_z_default p2)) as [-> | ->];
    [|by right].
  simpl. left. unfold math_sqrt.
  set (v := (_ + _ + _)%float).
  assert (unsigned v) as Hv
    by (repeat apply unsigned_add; apply unsigned_square).
  rewrite (unsigned_not_negative v Hv). eexists. split; [done|].
  by apply unsigned_not_negative, unsigned_sqrt.
Qed.

Lemma euclidean_distance_unsigned p1 p2 :
  (∃ d, euclidean_distance p1 p2 = Ok d ∧ unsigned d)
  ∨ euclidean_distance p1 p2 = Raise OverflowError.
Proof.
  unfold euclidean_distance.
  destruct (pow2_cases (pt_x p1 - pt_x p2)) as [-> | ->]; [|by right].
  destruct (pow2_cases (pt_y p1 - pt_y p2)) as [-> | ->]; [|by right].
  destruct (pow2_cases (get_z_default p1 - get_z_default p2)) as [-> | ->];
    [|by right].
  simpl. left. unfold math_sqrt.
  set (v := (_ + _ + _)%float).
  assert (unsigned v) as Hv
    by (repeat apply unsigned_add; apply unsigned_square).
  rewrite (unsigned_not_negative v Hv). eexists. split; [done|].
  by apply unsigned_sqrt.
Qed.

Lemma score_compatible landmarks template :
  length template = length landmarks → landmarks ≠ [] →
  (∃ s, score landmarks template = Ok s ∧ unsigned s)
  ∨ score landmarks template = Raise OverflowError.
Proof.
  intros Hlen Hne. unfold score.
  destruct (comprehension_cases unsigned OverflowError
              (λ i : nat,
                 p1 ← py_index landmarks (Z.of_nat i) ;
                 p2 ← py_index template (Z.of_nat i) ;
                 euclidean_distance p1 p2)
              (seq 0 (length template))) as [(ds & -> & Hds)| ->]; [| |by right].
  - intros i [_ Hi]%elem_of_seq. simpl in Hi.
    destruct (lookup_lt_is_Some_2 landmarks i) as [p1 Hp1]; [lia|].
    destruct (lookup_lt_is_Some_2 template i) as [p2 Hp2]; [lia|].
    rewrite (py_index_nat _ _ _ Hp1). simpl.
    rewrite (py_index_nat _ _ _ Hp2). simpl.
    apply euclidean_distance_unsigned.
  - simpl. left. unfold div_len.
    destruct (length template) as [|n] eqn:Hn.
    { destruct landmarks; [done | simpl in Hlen; lia]. }
    eexists. split; [done|].
    apply unsigned_div; [by apply unsigned_py_sum | apply unsigned_float_of_len].
Qed.

(** X5: Behind the gate, scoring cannot run out of either frame nor divide by
    zero: against a template of the live frame's length, a live frame that is
    not empty gets a score that is not below zero, or [OverflowError]. *)
Theorem score_behind_gate (landmarks template : frame) :
  length template = length landmarks → landmarks ≠ [] →
  (∃ s, score landmarks template = Ok s ∧ (s <? 0)%float = false)
  ∨ score landmarks template = Raise OverflowError.
Proof.
  intros Hlen Hne.
  destruct (score_compatible landmarks template Hlen Hne) as [(s & Hs & Hu)|Hr];
    [left | by right].
  exists s. split; [done | by apply unsigned_not_negative].
Qed.

Lemma score_behind_gate_witness :
  (∃ s, score sample_frame [sample_point 0 3 4 0; sample_point 1 4 0 3] = Ok s
        ∧ (s <? 0)%float = false)
  ∨ score sample_frame [sample_point 0 3 4 0; sample_point 1 4 0 3]
    = Raise OverflowError.
Proof.
  apply (score_behind_gate sample_frame [sample_point 0 3 4 0; sample_point 1 4 0 3]).
  - reflexivity.
  - discriminate.
Defined.




Lemma zero_least_unsigned z s :
  (z =? 0)%float = true → unsigned s → (s <? infinity)%float = true →
  (z <=? s)%float = true ∧ ((z <? s)%float = false → (s =? 0)%float = true).
Proof.
  intros Hz Hs Hfin. apply eqb_key in Hz. apply ltb_key in Hfin.
  rewrite leb_key, eqb_key. rewrite <- not_true_iff_false, ltb_key.
  unfold unsigned in Hs. revert Hz Hfin. unfold key_rel.
  change (Prim2SF 0) with (S754_zero false).
  change (Prim2SF infinity) with (S754_infinity false).
  destruct (Prim2SF s) as [ss|ss| |ss ms es]; simpl in Hs; subst; simpl;
    destruct (spec_key (Prim2SF z)) as [kz|]; try done; intros -> Hfin;
    unfold key_le, key_lt in *; simpl in *.
  - split; [by right | done].
  - lia.
  - split; [left; lia|]. intros H. destruct H. lia.
Qed.

(** X7: When a compatible template scores zero against the live frame, the label
    that [classify] returns is that of a compatible template that scores
    zero: an exact match is answered by an exact match. *)
Theorem classify_exact_match (landmarks : frame) (w w' : world)
    (r : option string) (templates : dict frame) (l : string) (t : frame) (z : float) :
  classify landmarks w = (Ok r, w') →
  load_templates w = (Ok templates, w') →
  (l, t) ∈ templates → length t = length landmarks →
  score landmarks t = Ok z → (z =? 0)%float = true →
  ∃ l' t' z', r = Some l' ∧ (l', t') ∈ templates ∧
    length t' = length landmarks ∧ score landmarks t' = Ok z' ∧
    (z' =? 0)%float = true.
Proof.
  intros Hc Hload Hin Hlen Hz Hzero.
  assert (landmarks ≠ []) as Hne.
  { intros ->. destruct t; [|done]. discriminate Hz. }
  destruct (classify_inv _ _ _ _ Hc) as (templates' & Hload' & H).
  rewrite Hload in Hload'. injection Hload' as <-.
  destruct H as [[[-> | ->] _]|[_ (best & Hloop & ->)]];
    [by apply elem_of_nil in Hin | done |].
  destruct (classify_loop_spec _ _ _ _ Hloop)
    as [[-> Hall]|(before & l1 & t1 & after & s1 & -> & -> & Ht1 & Hs1 & Hfin & Hb & Ha)].
  { destruct (Hall l t Hin Hlen) as (s & Hs & Hnot). rewrite Hz in Hs.
    injection Hs as <-. simpl in Hnot.
    by rewrite (eqb_ltb_trans z 0 infinity Hzero zero_ltb_infinity) in Hnot. }
  simpl in Hfin.
  destruct (score_compatible landmarks t1 Ht1 Hne) as [(s & Hs & Hu)|Hr];
    [|by rewrite Hr in Hs1].
  rewrite Hs1 in Hs. injection Hs as <-.
  destruct (zero_least_unsigned z s1 Hzero Hu Hfin) as [Hle Heq].
  exists l1, t1, s1. split; [done|].
  split; [apply elem_of_app; right; by left|]. split; [done|]. split; [done|].
  apply elem_of_app in Hin as [Hin|[[= -> ->]|Hin]%elem_of_cons].
  - destruct (Hb l t Hin Hlen) as (s & Hs & Hnot). rewrite Hz in Hs.
    injection Hs as <-. by rewrite Hle in Hnot.
  - rewrite Hz in Hs1. by injection Hs1 as <-.
  - destruct (Ha l t Hin Hlen) as (s & Hs & Hnot). rewrite Hz in Hs.
    injection Hs as <-. by apply Heq.
Qed.

Lemma classify_exact_match_witness :
  ∃ l' t' z',
    (classify sample_frame sample_world).1 = Ok (Some l') ∧
    (l', t') ∈ [("hello", [sample_point 0 1 2 3; sample_point 1 0 0 0]);
                ("wave", [sample_point 0 0 0 0]);
                ("thanks", [sample_point 0 0 0 0; sample_point 1 4 0 3])] ∧
    length t' = length sample_frame ∧ score sample_frame t' = Ok z' ∧
    (z' =? 0)%float = true.
Proof.
  destruct (classify_exact_match sample_frame sample_world
              (classify sample_frame sample_world).2 (Some "thanks")
              [("hello", [sample_point 0 1 2 3; sample_point 1 0 0 0]);
               ("wave", [sample_point 0 0 0 0]);
               ("thanks", [sample_point 0 0 0 0; sample_point 1 4 0 3])]
              "thanks" [sample_point 0 0 0 0; sample_point 1 4 0 3] 0%float)
    as (l' & t' & z' & Hr & H).
  - vm_compute. reflexivity.
  - vm_compute. reflexivity.
  - right. right. left.
  - reflexivity.
  - vm_compute. reflexivity.
  - reflexivity.
  - exists l', t', z'. split; [|exact H]. vm_compute. by rewrite Hr.
Defined.

End Signs.

(** ** What the loaders keep *)

Section Loaders.
Import SignClassifier Main.

Lemma add_template_get d f k :
  dict_get (add_template d f) k =
  if decide (file_key f = Some k) then Some (file_template f) else dict_get d k.
Proof.
  destruct (decide (file_key f = Some k)) as [Hk|Hk];
    unfold add_template, file_key, file_template in *;
    destruct (content f) as [p|]; simpl in *; try done.
  - rewrite Hk. apply dict_get_set_eq.
  - destruct (label_of p) as [k'|]; [|done]. apply dict_get_set_ne. congruence.
Qed.

Lemma fold_add_template_get files (d : dict frame) k :
  dict_get (fold_left add_template files d) k =
  match last_template files k with
  | Some t => Some t
  | None => dict_get d k
  end.
Proof.
  revert d; induction files as [|f files IH]; intros d; [done|].
  simpl. rewrite IH, add_template_get. unfold last_template.
  rewrite filter_cons. destruct (decide (file_key f = Some k)) as [Hk|Hk]; [|done].
  destruct (filter _ files) as [|g gs] eqn:Hfs; simpl; [done|].
  by destruct (proj2 (last_is_Some (g :: gs))) as [x ->].
Qed.

Lemma add_template_keys_lower (d : dict frame) f :
  (∀ k, k ∈ d.*1 → str_lower k = k) →
  ∀ k, k ∈ (add_template d f).*1 → str_lower k = k.
Proof.
  intros Hd k. unfold add_template. destruct (content f) as [p|]; [|apply Hd].
  unfold label_of. destruct (py_or (alias p) (sign p)) as [a|]; [|apply Hd]. simpl.
  destruct (dict_set_keys d (str_lower a) (default [] (average p)))
    as [-> | [_ ->]]; [apply Hd|].
  intros [Hk | ->%list_elem_of_singleton]%elem_of_app; [by apply Hd|].
  apply str_lower_idemp.
Qed.

(** X8: Over a directory that loads, [load_templates] gives every label the
    template of the last file carrying it: a later record of the same label,
    however it is cased, takes the place of an earlier one; the labels are
    pairwise different and in lower case. *)
Theorem load_templates_last_wins (w : world) :
  Forall (λ f, loadable f = true) (DATA_DIR w) →
  ∃ templates w',
    load_templates w = (Ok templates, w') ∧
    NoDup templates.*1 ∧
    (∀ k, dict_get templates k = last_template (DATA_DIR w) k) ∧
    (∀ k, k ∈ templates.*1 → str_lower k = k).
Proof.
  intros Hall. eexists _, _. split; [by apply load_templates_ok|].
  split; [|split].
  - eapply load_templates_NoDup. by apply load_templates_ok.
  - intros k. rewrite fold_add_template_get. by destruct (last_template _ k).
  - generalize (DATA_DIR w). intros files.
    assert (∀ k, k ∈ ([] : dict frame).*1 → str_lower k = k) as Hnil.
    { intros k Hk. by apply elem_of_nil in Hk. }
    revert Hnil. generalize ([] : dict frame).
    induction files as [|f files IH]; intros d Hd; simpl; [done|].
    apply IH. by apply add_template_keys_lower.
Qed.

Lemma load_templates_last_wins_witness :
  ∃ templates w',
    load_templates
      (World [hello_file;
              File "HELLO_landmarks.json" (Some (sample_payload "HELLO" sample_frame []))]
             ∅ [] []) = (Ok templates, w') ∧
    NoDup templates.*1 ∧
    (∀ k, dict_get templates k =
          last_template
            [hello_file;
             File "HELLO_landmarks.json" (Some (sample_payload "HELLO" sample_frame []))] k) ∧
    (∀ k, k ∈ templates.*1 → str_lower k = k).
Proof.
  apply (load_templates_last_wins
           (World [hello_file;
                   File "HELLO_landmarks.json"
                     (Some (sample_payload "HELLO" sample_frame []))] ∅ [] [])).
  repeat constructor.
Defined.

Lemma fold_loaders_agree files (d : dict frame) w k :
  dict_get d k = payload_template <$> (SIGN_LANDMARKS w !! k) →
  dict_get (fold_left add_template files d) k =
  payload_template <$> (SIGN_LANDMARKS (fold_left (flip stored) files w) !! k).
Proof.
  revert d w; induction files as [|f files IH]; intros d w Hd; simpl; [done|].
  apply IH. rewrite add_template_get.
  destruct (decide (file_key f = Some k)) as [Hk|Hk];
    unfold flip, stored, file_key, file_template in *;
    destruct (content f) as [p|]; simpl in *; try done.
  - rewrite Hk. simpl. by rewrite lookup_insert_eq.
  - destruct (label_of p) as [k'|]; [|done]. simpl.
    rewrite lookup_insert_ne by congruence. done.
Qed.

(** X9: The two loaders agree: over a directory that loads, and from an empty
    mapping, the template that [load_templates] holds for a label is the
    average of the record that [load_landmark_templates] stores under it. *)
Theorem loaders_agree (w : world) :
  Forall (λ f, loadable f = true) (DATA_DIR w) →
  SIGN_LANDMARKS w = ∅ →
  ∃ templates w1 w2,
    load_templates w = (Ok templates, w1) ∧
    load_landmark_templates w = (Ok tt, w2) ∧
    ∀ k, dict_get templates k = payload_template <$> (SIGN_LANDMARKS w2 !! k).
Proof.
  intros Hall Hempty. eexists _, _, _.
  split; [by apply load_templates_ok|].
  split; [by apply load_landmark_templates_ok|].
  intros k. apply fold_loaders_agree. simpl. by rewrite Hempty, lookup_empty.
Qed.

Lemma loaders_agree_witness :
  ∃ templates w1 w2,
    load_templates sample_world = (Ok templates, w1) ∧
    load_landmark_templates sample_world = (Ok tt, w2) ∧
    ∀ k, dict_get templates k = payload_template <$> (SIGN_LANDMARKS w2 !! k).
Proof.
  apply (loaders_agree sample_world); [repeat constructor | reflexivity].
Defined.

Lemma for_in_M_world_inv {A S} (P : world -> Prop) (body : S -> A -> M S)
    (l : list A) :
  (∀ s a w, P w → P (body s a w).2) →
  ∀ s w, P w → P (for_in_M l body s w).2.
Proof.
  intros Hbody. induction l as [|a l IH]; intros s w Hw; simpl; [done|].
  unfold mbind, M_bind. specialize (Hbody s a w Hw).
  destruct (body s a w) as [[s1|e] w1]; simpl in *; [by apply IH | done].
Qed.

Lemma stored_keyed f w :
  keyed (SIGN_LANDMARKS w) → keyed (SIGN_LANDMARKS (stored f w)).
Proof.
  intros Hw. unfold stored. destruct (content f) as [p|]; [|done].
  destruct (label_of p) as [k|] eqn:Hk; [|done]. simpl.
  intros k' p'. destruct (decide (k = k')) as [<-|Hne].
  - rewrite lookup_insert_eq. by intros [= <-].
  - rewrite lookup_insert_ne by done. apply Hw.
Qed.

Lemma load_landmark_templates_keyed w :
  keyed (SIGN_LANDMARKS w) → keyed (SIGN_LANDMARKS (load_landmark_templates w).2).
Proof.
  intros Hw. unfold load_landmark_templates, mbind, M_bind. rewrite glob_eq.
  cbv beta iota.
  apply (for_in_M_world_inv (λ w, keyed (SIGN_LANDMARKS w))); [|done].
  intros [] f w1 Hw1. destruct (loadable f) eqn:Hf.
  - rewrite load_landmark_template_ok by done. by apply stored_keyed.
  - by rewrite load_landmark_template_raise.
Qed.

(** X10: Every record sits under its own label, and stays there: if each record
    of the mapping is stored under the lower-cased alias (or sign) it
    carries, as in the empty mapping, this is so after a lookup, whether the
    load it runs completes or raises; and the payload a lookup returns
    carries an alias (or sign) that is the query up to case. *)
Theorem lookup_keeps_records_keyed (sign : string) (w : world) :
  keyed (SIGN_LANDMARKS w) →
  keyed (SIGN_LANDMARKS (get_sign_landmarks sign w).2) ∧
  ∀ p, (get_sign_landmarks sign w).1 = Ok p → label_of p = Some (str_lower sign).
Proof.
  intros Hw.
  assert (∀ w0, keyed (SIGN_LANDMARKS w0) →
            ∀ p, (match SIGN_LANDMARKS w0 !! str_lower sign with
                  | Some p =>
                      if payload_truthy p then Ok p
                      else Raise (HTTPException 404 "Sign landmarks not found.")
                  | None => Raise (HTTPException 404 "Sign landmarks not found.")
                  end) = Ok p → label_of p = Some (str_lower sign)) as Hget.
  { intros w0 Hw0 p. destruct (SIGN_LANDMARKS w0 !! str_lower sign) as [q|] eqn:Hq;
      [|done]. destruct (payload_truthy q); [|done]. intros [= <-]. by apply Hw0. }
  destruct (decide (size (SIGN_LANDMARKS w) = 0%nat)) as [He|Hne].
  - rewrite get_sign_landmarks_empty by done.
    pose proof (load_landmark_templates_keyed w Hw) as Hk.
    destruct (load_landmark_templates w) as [[[]|e] w1]; simpl in *; [|done].
    split; [done | by apply Hget].
  - rewrite get_sign_landmarks_loaded by done. simpl.
    split; [done | by apply Hget].
Qed.

Lemma lookup_keeps_records_keyed_witness :
  keyed (SIGN_LANDMARKS (get_sign_landmarks "HELLO" sample_world).2) ∧
  ∀ p, (get_sign_landmarks "HELLO" sample_world).1 = Ok p →
       label_of p = Some (str_lower "HELLO").
Proof.
  apply (lookup_keeps_records_keyed "HELLO" sample_world).
  intros k p Hk. simpl in Hk. by rewrite lookup_empty in Hk.
Defined.

End Loaders.

(** ** Saving a record and finding it again *)

Section Saving.
Import SignClassifier Main ProcessLandmarksStore.


Lemma write_file_paths dir name p :
  (name ∈ path <$> dir ∧ path <$> write_file dir name p = path <$> dir)
  ∨ ((name ∉ path <$> dir) ∧ path <$> write_file dir name p = (path <$> dir) ++ [name]).
Proof.
  induction dir as [|f dir IH]; csimpl.
  - right. split; [apply not_elem_of_nil | done].
  - destruct (String.eqb (path f) name) eqn:Hf; csimpl.
    + apply String.eqb_eq in Hf as <-. left. split; [by left | done].
    + apply String.eqb_neq in Hf.
      destruct IH as [[Hin ->]|[Hnotin ->]]; [left | right]; (split; [|done]).
      * by right.
      * apply not_elem_of_cons. split; [congruence | done].
Qed.

Lemma write_file_NoDup dir name p :
  NoDup (path <$> dir) → NoDup (path <$> write_file dir name p).
Proof.
  intros Hnd. destruct (write_file_paths dir name p) as [[_ ->]|[Hn ->]]; [done|].
  apply NoDup_app. split; [done|]. split; [|apply NoDup_singleton].
  intros x Hx ->%list_elem_of_singleton. done.
Qed.


Lemma write_file_elem_of dir name p f :
  NoDup (path <$> dir) → f ∈ write_file dir name p →
  f = File name (Some p) ∨ (f ∈ dir ∧ path f ≠ name).
Proof.
  induction dir as [|g dir IH]; csimpl; intros Hnd.
  - intros ->%list_elem_of_singleton. by left.
  - apply NoDup_cons in Hnd as [Hg Hnd].
    destruct (String.eqb (path g) name) eqn:Heq.
    + apply String.eqb_eq in Heq as <-.
      intros [->|Hin]%elem_of_cons; [by left|]. right. split; [by right|].
      intros Hf. destruct Hg. rewrite <- Hf. by apply list_elem_of_fmap_2.
    + apply String.eqb_neq in Heq.
      intros [->|Hin]%elem_of_cons; [right; split; [by left | done]|].
      destruct (IH Hnd Hin) as [->|[Hin' Hne]]; [by left|].
      right. split; [by right | done].
Qed.

Lemma write_file_twice dir name p1 p2 :
  write_file (write_file dir name p1) name p2 = write_file dir name p2.
Proof.
  induction dir as [|f dir IH]; simpl.
  - by rewrite String.eqb_refl.
  - destruct (String.eqb (path f) name) eqn:Hf; simpl.
    + by rewrite String.eqb_refl.
    + by rewrite Hf, IH.
Qed.

Lemma saved_payload_key sign video frames averages :
  label_of (saved_payload sign video frames averages) = Some (str_lower sign).
Proof.
  unfold label_of, saved_payload, py_or. simpl.
  destruct (String.eqb (str_lower sign) ""); simpl; [done|].
  by rewrite str_lower_idemp.
Qed.

Lemma save_landmarks_world sign video frames averages w :
  save_landmarks sign video frames averages w =
    (Ok (str_lower sign +:+ "_landmarks.json"),
     World (write_file (DATA_DIR w) (str_lower sign +:+ "_landmarks.json")
              (saved_payload sign video frames averages))
           (SIGN_LANDMARKS w)
           (Write (str_lower sign +:+ "_landmarks.json") :: fs_log w) (written w)).
Proof. reflexivity. Qed.



Lemma fold_stored_get files w k :
  SIGN_LANDMARKS (fold_left (flip stored) files w) !! k =
  match last (filter (λ f, file_key f = Some k) files) with
  | Some f => content f
  | None => SIGN_LANDMARKS w !! k
  end.
Proof.
  revert w; induction files as [|f files IH]; intros w; [done|].
  simpl. rewrite IH, filter_cons.
  destruct (decide (file_key f = Some k)) as [Hk|Hk].
  - destruct (filter _ files) as [|g gs] eqn:Hfs; simpl.
    + unfold flip, stored, file_key in *. destruct (content f) as [p|]; [|done].
      simpl in Hk. rewrite Hk. simpl. by rewrite lookup_insert_eq.
    + by destruct (proj2 (last_is_Some (g :: gs))) as [x ->].
  - destruct (last (filter _ files)); [done|].
    unfold flip, stored, file_key in *. destruct (content f) as [p|]; [|done].
    simpl in Hk. destruct (label_of p) as [k'|]; [|done]. simpl.
    rewrite lookup_insert_ne; [done | congruence].
Qed.

Lemma save_landmarks_canonical sign video frames averages w :
  canonical (DATA_DIR w) →
  canonical (DATA_DIR (save_landmarks sign video frames averages w).2).
Proof.
  intros [Hnd Hdir]. rewrite save_landmarks_world. simpl. split.
  - by apply write_file_NoDup.
  - intros f [->|[Hf _]]%write_file_elem_of; [|by apply Hdir|done].
    exists (str_lower sign). split; [|done].
    unfold file_key. simpl. apply saved_payload_key.
Qed.

(** X11: A directory in which every file is named after the label of its record
    stays so when [save_landmarks] writes into it. *)
Theorem save_landmarks_keeps_canonical (sign video_url : string)
    (frames : list frame) (averages : frame) (w : world) :
  canonical (DATA_DIR w) →
  canonical (DATA_DIR (save_landmarks sign video_url frames averages w).2).
Proof. apply save_landmarks_canonical. Qed.

Lemma sample_world_canonical : canonical (DATA_DIR sample_world).
Proof.
  split.
  - apply (bool_decide_unpack _). vm_compute. exact I.
  - intros f Hf. simpl in Hf.
    repeat (apply elem_of_cons in Hf as [->|Hf]);
      [eexists; split; reflexivity ..|by apply elem_of_nil in Hf].
Defined.

Lemma save_landmarks_keeps_canonical_witness :
  canonical (DATA_DIR (save_landmarks "Hello" "video" [sample_frame] sample_frame
                         sample_world).2).
Proof.
  apply (save_landmarks_keeps_canonical "Hello" "video" [sample_frame] sample_frame
           sample_world).
  exact sample_world_canonical.
Defined.



(** X13: Signs that differ only in case are saved into the same file: after a
    second save the directory is what the second save alone would have left,
    and the first record is gone. *)
Theorem save_landmarks_overwrites (sign1 sign2 video1 video2 : string)
    (frames1 frames2 : list frame) (averages1 averages2 : frame) (w : world) :
  str_lower sign1 = str_lower sign2 →
  DATA_DIR (save_landmarks sign2 video2 frames2 averages2
              (save_landmarks sign1 video1 frames1 averages1 w).2).2 =
  DATA_DIR (save_landmarks sign2 video2 frames2 averages2 w).2.
Proof.
  intros Heq. rewrite !save_landmarks_world. simpl. rewrite Heq.
  apply write_file_twice.
Qed.

Lemma save_landmarks_overwrites_witness :
  DATA_DIR (save_landmarks "HELLO" "v2" [] sample_frame
              (save_landmarks "Hello" "v1" [sample_frame] [] sample_world).2).2 =
  DATA_DIR (save_landmarks "HELLO" "v2" [] sample_frame sample_world).2.
Proof.
  apply (save_landmarks_overwrites "Hello" "HELLO" "v1" "v2").
  reflexivity.
Defined.

(** X14: No reload: once the mapping holds a record, a lookup answers after a
    save as it did before it, so a record saved since the load is not seen. *)
Theorem saved_record_not_seen_once_loaded (sign video_url query : string)
    (frames : list frame) (averages : frame) (w : world) :
  size (SIGN_LANDMARKS w) ≠ 0%nat →
  (get_sign_landmarks query (save_landmarks sign video_url frames averages w).2).1 =
  (get_sign_landmarks query w).1.
Proof.
  intros Hne. rewrite save_landmarks_world.
  by rewrite !get_sign_landmarks_loaded.
Qed.

Lemma saved_record_not_seen_once_loaded_witness :
  (get_sign_landmarks "new"
     (save_landmarks "new" "video" [sample_frame] sample_frame
        (get_sign_landmarks "hello" sample_world).2).2).1 =
  (get_sign_landmarks "new" (get_sign_landmarks "hello" sample_world).2).1.
Proof.
  apply (saved_record_not_seen_once_loaded "new" "video" "new" [sample_frame]
           sample_frame (get_sign_landmarks "hello" sample_world).2).
  vm_compute. discriminate.
Defined.

End Saving.

(** ** Export: failures, tolerated records and the columns of a row *)

Section ExportEdges.
Import SignClassifier.

Lemma fold_opened_fields files w :
  DATA_DIR (fold_left (flip opened) files w) = DATA_DIR w ∧
  SIGN_LANDMARKS (fold_left (flip opened) files w) = SIGN_LANDMARKS w ∧
  written (fold_left (flip opened) files w) = written w.
Proof.
  revert w; induction files as [|f files IH]; intros w; simpl; [done|].
  destruct (IH (opened f w)) as (H1 & H2 & H3).
  change (flip opened w f) with (opened f w). by rewrite H1, H2, H3.
Qed.

Lemma export_file_raise limit rows f w :
  content f = None →
  export_file limit rows f w = (Raise JSONDecodeError, opened f w).
Proof.
  intros Hf. unfold export_file, json_load, log, lift, mbind, M_bind, opened.
  simpl. by rewrite Hf.
Qed.

(** X15: An unparsable record makes [export_dataset] raise [JSONDecodeError]
    before anything is written: no dataset file is left, whatever the rows
    gathered from the files before it. *)
Theorem export_dataset_unparsable (out : string) (limit : option Z) (w : world)
    (before after : list file) (f : file) :
  DATA_DIR w = before ++ f :: after →
  Forall (λ g, is_Some (content g)) before →
  content f = None →
  ∃ w', export_dataset out limit w = (Raise JSONDecodeError, w') ∧
        written w' = written w.
Proof.
  intros Hdir Hall Hf.
  unfold export_dataset, mbind at 1, M_bind. rewrite glob_eq. cbv beta iota.
  unfold mbind, M_bind. rewrite Hdir.
  rewrite (for_in_M_raise (export_file limit) (λ rows g, rows ++ file_rows limit g)
             opened before after f JSONDecodeError).
  - eexists. split; [done|].
    destruct (fold_opened_fields before (globbed w)) as (_ & _ & Hw). simpl.
    by rewrite Hw.
  - intros g rows w1 Hg. apply export_file_ok.
    by apply (proj1 (Forall_forall _ _) Hall).
  - intros rows w1. by apply export_file_raise.
Qed.

Lemma export_dataset_unparsable_witness :
  ∃ w', export_dataset "sign_dataset.json" (Some 2)
          (World [hello_file; broken_file; thanks_file] ∅ [] []) =
          (Raise JSONDecodeError, w') ∧
        written w' = [].
Proof.
  apply (export_dataset_unparsable "sign_dataset.json" (Some 2)
           (World [hello_file; broken_file; thanks_file] ∅ [] [])
           [hello_file] [thanks_file] broken_file).
  - reflexivity.
  - repeat constructor. simpl. eauto.
  - reflexivity.
Defined.

Lemma first_not_loadable (files : list file) :
  ¬ Forall (λ f, loadable f = true) files →
  ∃ before f after, files = before ++ f :: after ∧
    Forall (λ g, loadable g = true) before ∧ loadable f = false.
Proof.
  induction files as [|g files IH]; intros Hnot.
  - destruct Hnot. constructor.
  - destruct (loadable g) eqn:Hg.
    + destruct IH as (before & f & after & -> & Hb & Hf).
      { intros H. apply Hnot. by constructor. }
      exists (g :: before), f, after. split; [done|]. split; [by constructor | done].
    + exists [], g, files. split; [done|]. split; [constructor | done].
Qed.

(** X16: The exporter takes records that the loaders refuse: over a directory
    whose files all parse, [export_dataset] completes even when a record has
    neither alias nor sign, whose rows then carry the label [None], while
    [load_templates] raises [AttributeError] on that directory. *)
Theorem export_accepts_unlabelled (out : string) (limit : option Z) (w : world)
    (f : file) :
  Forall (λ g, is_Some (content g)) (DATA_DIR w) →
  f ∈ DATA_DIR w → loadable f = false →
  (export_dataset out limit w).1 = Ok tt ∧
  (∀ r, r ∈ file_rows limit f → dict_get r "label" = Some (CLabel None)) ∧
  (load_templates w).1 = Raise AttributeError.
Proof.
  intros Hall Hf Hnl. split; [by rewrite export_dataset_ok|]. split.
  - intros r Hr. unfold file_rows in Hr.
    apply list_elem_of_fmap in Hr as (fr & -> & _). rewrite make_row_label.
    do 2 f_equal. unfold file_label.
    destruct (not_loadable_inv f Hnl) as [Hc|(p & -> & Hp)]; [by rewrite Hc | done].
  - destruct (first_not_loadable (DATA_DIR w)) as (before & g & after & Hdir & Hb & Hg).
    { intros H. pose proof (proj1 (Forall_forall _ _) H f Hf). congruence. }
    rewrite (load_templates_raise w before g after Hdir Hb Hg). simpl.
    unfold load_error.
    assert (is_Some (content g)) as [p ->]; [|done].
    apply (proj1 (Forall_forall _ _) Hall). rewrite Hdir.
    apply elem_of_app. right. by left.
Qed.

Lemma export_accepts_unlabelled_witness :
  (export_dataset "sign_dataset.json" None
     (World [hello_file;
             File "x_landmarks.json"
               (Some (Payload None None None None None (Some [sample_frame])))]
            ∅ [] [])).1 = Ok tt ∧
  (∀ r, r ∈ file_rows None
              (File "x_landmarks.json"
                 (Some (Payload None None None None None (Some [sample_frame])))) →
        dict_get r "label" = Some (CLabel None)) ∧
  (load_templates
     (World [hello_file;
             File "x_landmarks.json"
               (Some (Payload None None None None None (Some [sample_frame])))]
            ∅ [] [])).1 = Raise AttributeError.
Proof.
  apply (export_accepts_unlabelled "sign_dataset.json" None
           (World [hello_file;
                   File "x_landmarks.json"
                     (Some (Payload None None None None None (Some [sample_frame])))]
                  ∅ [] [])).
  - repeat constructor; simpl; eauto.
  - right. left.
  - reflexivity.
Defined.

Lemma dict_set_new {V} (d : dict V) k v :
  dict_get d k = None → dict_set d k v = d ++ [(k, v)].
Proof.
  induction d as [|[k' v'] d IH]; simpl; [done|].
  destruct (String.eqb k' k); [done|]. intros Hd. by rewrite IH.
Qed.

Lemma dict_get_app_None {V} (d1 d2 : dict V) k :
  dict_get d1 k = None → dict_get (d1 ++ d2) k = dict_get d2 k.
Proof.
  induction d1 as [|[k' v'] d1 IH]; simpl; [done|].
  destruct (String.eqb k' k); [done | apply IH].
Qed.

Lemma dict_get_cons {V} (d : dict V) k' (v : V) k :
  dict_get ((k', v) :: d) k = if String.eqb k' k then Some v else dict_get d k.
Proof. reflexivity. Qed.

Lemma column_eqb (c c' : ascii) (i j : Z) :
  i ≠ j ∨ c ≠ c' →
  String.eqb (String c ("_" +:+ pretty i)) (String c' ("_" +:+ pretty j)) = false.
Proof.
  intros Hne. apply String.eqb_neq. intros [Hc Hi]%column_inj.
  destruct Hne; congruence.
Qed.

Lemma dict_get_columns_other (ps : list point) (c : ascii) (i : Z) :
  i ∉ pt_id <$> ps →
  dict_get (flat_map columns ps) (String c ("_" +:+ pretty i)) = None.
Proof.
  induction ps as [|p ps IH]; [done|].
  rewrite fmap_cons. intros [Hne Hi]%not_elem_of_cons.
  change (flat_map columns (p :: ps)) with (columns p ++ flat_map columns ps).
  unfold columns.
  change ("x_" +:+ pretty (pt_id p)) with (String "x" ("_" +:+ pretty (pt_id p))).
  change ("y_" +:+ pretty (pt_id p)) with (String "y" ("_" +:+ pretty (pt_id p))).
  change ("z_" +:+ pretty (pt_id p)) with (String "z" ("_" +:+ pretty (pt_id p))).
  cbn [app]. rewrite !dict_get_cons, !column_eqb by (left; congruence).
  by apply IH.
Qed.

(** X17: The columns of a row: for a frame whose points have pairwise different
    ids, the row is the label followed by the x, y and z columns of each
    point, in the order of the frame, with a missing z written as 0; so it
    has three columns a point and one more. *)
Theorem make_row_columns (label : option string) (fr : frame) :
  NoDup (pt_id <$> fr) →
  make_row label fr = ("label", CLabel label) :: flat_map columns fr ∧
  length (make_row label fr) = (1 + 3 * length fr)%nat.
Proof.
  intros Hnd.
  assert (make_row label fr = ("label", CLabel label) :: flat_map columns fr) as ->.
  { unfold make_row. induction fr as [|p fr IH] using rev_ind; [done|].
    rewrite fmap_app in Hnd. apply NoDup_app in Hnd as (Hfr & Hp & _).
    rewrite fold_left_app, flat_map_app. simpl. rewrite IH by done.
    assert (pt_id p ∉ pt_id <$> fr) as Hnew.
    { intros Hin. apply (Hp _ Hin). by left. }
    set (r := ("label", CLabel label) :: flat_map columns fr).
    assert (∀ c, dict_get r (String c ("_" +:+ pretty (pt_id p))) = None) as Hr.
    { intros c. unfold r. rewrite dict_get_cons.
      destruct (String.eqb "label" _) eqn:He; [|by apply dict_get_columns_other].
      apply String.eqb_eq in He. simpl in He. discriminate He. }
    unfold add_point, columns.
    change ("x_" +:+ pretty (pt_id p)) with (String "x" ("_" +:+ pretty (pt_id p))).
    change ("y_" +:+ pretty (pt_id p)) with (String "y" ("_" +:+ pretty (pt_id p))).
    change ("z_" +:+ pretty (pt_id p)) with (String "z" ("_" +:+ pretty (pt_id p))).
    rewrite (dict_set_new r (String "x" _)) by apply Hr.
    rewrite (dict_set_new (r ++ [_]) (String "y" _)).
    2:{ rewrite dict_get_app_None by apply Hr.
        rewrite dict_get_cons, column_eqb; [done | by right]. }
    rewrite (dict_set_new ((r ++ [_]) ++ [_]) (String "z" _)).
    2:{ rewrite <- app_assoc, dict_get_app_None by apply Hr.
        cbn [app]. rewrite !dict_get_cons, !column_eqb; [done | by right..]. }
    by rewrite <- !app_assoc. }
  split; [done|]. simpl. f_equal.
  clear Hnd. induction fr as [|p fr IH]; simpl; [done|]. rewrite IH. lia.
Qed.

Lemma make_row_columns_witness :
  make_row (Some "thanks") sample_frame =
    ("label", CLabel (Some "thanks")) :: flat_map columns sample_frame ∧
  length (make_row (Some "thanks") sample_frame) = (1 + 3 * length sample_frame)%nat.
Proof.
  apply (make_row_columns (Some "thanks") sample_frame).
  apply (bool_decide_unpack _). vm_compute. exact I.
Defined.

End ExportEdges.

(** ** The gesture rule needs seventeen landmarks *)

Section GestureBounds.
Import Main.

Lemma py_index_out_of_range {A} (l : list A) (i : nat) :
  (length l ≤ i)%nat → py_index l (Z.of_nat i) = Raise IndexError.
Proof.
  intros Hi. unfold py_index.
  replace (Z.of_nat i <? 0) with false by (symmetry; apply Z.ltb_ge; lia).
  replace (Z.of_nat i <? Z.of_nat (length l)) with false
    by (symmetry; apply Z.ltb_ge; lia).
  by rewrite andb_false_r.
Qed.

(** X18: [detect_gestures] reads the landmarks 0, 15 and 16: it raises
    [IndexError] exactly on fewer than seventeen landmarks, and returns on
    any longer sequence. *)
Theorem detect_gestures_index_error (landmarks : list landmark) :
  (detect_gestures landmarks = Raise IndexError ↔ (length landmarks < 17)%nat) ∧
  ((17 ≤ length landmarks)%nat → ∃ r, detect_gestures landmarks = Ok r).
Proof.
  assert ((17 ≤ length landmarks)%nat → ∃ r, detect_gestures landmarks = Ok r)
    as Hok.
  { intros Hlen. unfold detect_gestures.
    destruct (lookup_lt_is_Some_2 landmarks 0) as [nose Hn]; [lia|].
    destruct (lookup_lt_is_Some_2 landmarks 15) as [lw Hl]; [lia|].
    destruct (lookup_lt_is_Some_2 landmarks 16) as [rw Hr]; [lia|].
    change NOSE with (Z.of_nat 0). change LEFT_WRIST with (Z.of_nat 15).
    change RIGHT_WRIST with (Z.of_nat 16).
    rewrite (py_index_nat _ _ _ Hn). simpl.
    rewrite (py_index_nat _ _ _ Hl). simpl.
    rewrite (py_index_nat _ _ _ Hr). simpl.
    destruct (_ && _); [by eexists|]. destruct (_ && _); [by eexists|].
    destruct (_ && _); by eexists. }
  split; [|done]. split.
  - intros Hraise. destruct (decide (length landmarks < 17)%nat); [done|].
    destruct Hok as [r Hr]; [lia|]. by rewrite Hr in Hraise.
  - intros Hlen. unfold detect_gestures.
    change NOSE with (Z.of_nat 0). change LEFT_WRIST with (Z.of_nat 15).
    change RIGHT_WRIST with (Z.of_nat 16).
    destruct (decide (length landmarks = 0)%nat) as [H0|H0].
    { by rewrite (py_index_out_of_range landmarks 0) by lia. }
    destruct (lookup_lt_is_Some_2 landmarks 0) as [nose Hn]; [lia|].
    rewrite (py_index_nat _ _ _ Hn). simpl.
    destruct (decide (length landmarks ≤ 15)%nat) as [H15|H15].
    { by rewrite (py_index_out_of_range landmarks 15) by lia. }
    destruct (lookup_lt_is_Some_2 landmarks 15) as [lw Hl]; [lia|].
    rewrite (py_index_nat _ _ _ Hl). simpl.
    by rewrite (py_index_out_of_range landmarks 16) by lia.
Qed.

Lemma detect_gestures_index_error_witness :
  ∃ r, detect_gestures (sample_pose 0.5 0.65 0.9 0.6 0.9) = Ok r.
Proof.
  apply (proj2 (detect_gestures_index_error (sample_pose 0.5 0.65 0.9 0.6 0.9))).
  simpl. lia.
Defined.

End GestureBounds.

(** ** A load that fails *)

Section FailedLoad.
Import Main.

Lemma lookups_loaded signs w :
  size (SIGN_LANDMARKS w) ≠ 0%nat → lookups signs w = w.
Proof.
  intros Hne. unfold lookups. induction signs as [|sign signs IH]; simpl; [done|].
  by rewrite get_sign_landmarks_world_loaded.
Qed.

Lemma size_ne_0_lookup (m : gmap string payload) k :
  is_Some (m !! k) → size m ≠ 0%nat.
Proof.
  intros [p Hp] Hsize. apply map_size_empty_iff in Hsize. subst.
  by rewrite lookup_empty in Hp.
Qed.

(** X19: A load that raises is not tried again once it has stored a record: when
    the first lookup of a process meets a record that does not load, it
    raises that record's exception; if records stood before it in the scan,
    they are all a later lookup will ever find, for none reads the directory
    again; if none did, the mapping is still empty and the next lookup scans
    again. *)
Theorem failed_load_not_retried (sign : string) (w : world)
    (before after : list file) (f : file) :
  size (SIGN_LANDMARKS w) = 0%nat →
  DATA_DIR w = before ++ f :: after →
  Forall (λ g, loadable g = true) before →
  loadable f = false →
  (get_sign_landmarks sign w).1 = Raise (load_error f) ∧
  (before ≠ [] → ∀ signs,
     lookups signs (get_sign_landmarks sign w).2 = (get_sign_landmarks sign w).2) ∧
  (before = [] → size (SIGN_LANDMARKS (get_sign_landmarks sign w).2) = 0%nat).
Proof.
  intros Hempty Hdir Hall Hf.
  rewrite get_sign_landmarks_empty by done.
  rewrite (load_landmark_templates_raise w before f after Hdir Hall Hf). simpl.
  split; [done|]. split.
  - intros Hne signs. apply lookups_loaded. simpl.
    destruct before as [|b before]; [done|].
    inversion Hall as [|? ? Hb _]; subst.
    destruct (loadable_inv b Hb) as (p & a & Hp & _ & Hl).
    apply (size_ne_0_lookup _ (str_lower a)).
    eapply fold_stored_available; [by left | done..].
  - intros ->. simpl. done.
Qed.

Lemma failed_load_not_retried_witness :
  (get_sign_landmarks "thanks" (World [hello_file; broken_file; thanks_file] ∅ [] [])).1
    = Raise (load_error broken_file) ∧
  ([hello_file] ≠ [] → ∀ signs,
     lookups signs
       (get_sign_landmarks "thanks"
          (World [hello_file; broken_file; thanks_file] ∅ [] [])).2 =
     (get_sign_landmarks "thanks"
        (World [hello_file; broken_file; thanks_file] ∅ [] [])).2) ∧
  ([hello_file] = [] →
   size (SIGN_LANDMARKS
           (get_sign_landmarks "thanks"
              (World [hello_file; broken_file; thanks_file] ∅ [] [])).2) = 0%nat).
Proof.
  apply (failed_load_not_retried "thanks"
           (World [hello_file; broken_file; thanks_file] ∅ [] [])
           [hello_file] [thanks_file] broken_file).
  - reflexivity.
  - reflexivity.
  - repeat constructor.
  - reflexivity.
Defined.

End FailedLoad.

(** ** Row counts, and what a first lookup finds *)

Section Counts.
Import SignClassifier Main ProcessLandmarksStore.

Lemma limited_length limit (l : list frame) :
  length (limited limit l) = limit_count limit (length l).
Proof.
  unfold limited, limit_count, truthy, slice_to. destruct limit as [K|]; [|done].
  simpl. destruct (K =? 0) eqn:H0; simpl; [done|].
  destruct (K <? 0) eqn:Hneg; rewrite length_take; lia.
Qed.

(** X20: The number of rows exported, for every limit: over a directory whose
    files all parse, each record of [R] retained frames gives [R] rows
    without a limit or with the limit 0, the first [min K R] for a limit
    [K > 0], and all but the last [-K] for a limit [K < 0]. *)
Theorem export_dataset_row_count (out : string) (limit : option Z) (w : world) :
  Forall (λ f, is_Some (content f)) (DATA_DIR w) →
  ∃ rows w',
    export_dataset out limit w = (Ok tt, w') ∧
    written w' = (out, rows) :: written w ∧
    length rows =
      sum_list ((λ f, limit_count limit (length (file_frames f))) <$> DATA_DIR w).
Proof.
  intros Hall. eexists _, _. split; [by apply export_dataset_ok|].
  split; [done|]. generalize (DATA_DIR w). intros files.
  induction files as [|f files IH]; [done|].
  rewrite !fmap_cons. simpl. rewrite length_app, IH. f_equal.
  unfold file_rows. by rewrite length_fmap, limited_length.
Qed.

Lemma export_dataset_row_count_witness :
  ∃ rows w',
    export_dataset "sign_dataset.json" (Some (-1)) sample_world = (Ok tt, w') ∧
    written w' = ("sign_dataset.json", rows) :: written sample_world ∧
    length rows =
      sum_list ((λ f, limit_count (Some (-1)) (length (file_frames f)))
                  <$> DATA_DIR sample_world).
Proof.
  apply (export_dataset_row_count "sign_dataset.json" (Some (-1)) sample_world).
  repeat constructor; simpl; eauto.
Defined.

(** X21: What a first lookup finds: from an empty mapping, over a directory that
    loads, a lookup returns the record of the last file whose label is the
    lower-cased query, and raises the 404 exception when no file has that
    label. *)
Theorem first_lookup_finds_last_record (query : string) (w : world) :
  size (SIGN_LANDMARKS w) = 0%nat →
  Forall (λ f, loadable f = true) (DATA_DIR w) →
  (get_sign_landmarks query w).1 =
    match last (filter (λ f, file_key f = Some (str_lower query)) (DATA_DIR w)) with
    | Some f =>
        match content f with
        | Some p => Ok p
        | None => Raise (HTTPException 404 "Sign landmarks not found.")
        end
    | None => Raise (HTTPException 404 "Sign landmarks not found.")
    end.
Proof.
  intros Hempty Hall. rewrite get_sign_landmarks_empty by done.
  rewrite load_landmark_templates_ok by done. simpl.
  rewrite fold_stored_get.
  destruct (last (filter _ (DATA_DIR w))) as [f|] eqn:Hlast.
  - apply last_Some_elem_of, list_elem_of_filter in Hlast as [Hk Hf].
    unfold file_key, label_of in Hk. destruct (content f) as [p|]; [|done].
    simpl in Hk. unfold payload_truthy.
    destruct (alias p) as [a|] eqn:Ha; [by rewrite orb_true_r|].
    destruct (sign p) as [s0|] eqn:Hs; [done|]. discriminate Hk.
  - simpl. apply map_size_empty_iff in Hempty. by rewrite Hempty, lookup_empty.
Qed.

Lemma first_lookup_finds_last_record_witness :
  (get_sign_landmarks "Thanks" sample_world).1 =
    match last (filter (λ f, file_key f = Some (str_lower "Thanks"))
                  (DATA_DIR sample_world)) with
    | Some f =>
        match content f with
        | Some p => Ok p
        | None => Raise (HTTPException 404 "Sign landmarks not found.")
        end
    | None => Raise (HTTPException 404 "Sign landmarks not found.")
    end.
Proof.
  apply (first_lookup_finds_last_record "Thanks" sample_world).
  - reflexivity.
  - repeat constructor.
Defined.





End Counts.
